(** * Streaming investigation graph: layout, edges, viewport and expansion

    A shallow embedding of the React front end that visualises an agent
    investigation as a growing graph of nodes:

    - [Home] (the page): the node store fed by the WebSocket handler
      [onmessage], and [handleReset];
    - [Horizontal] (component NodeVisualization): expansion flags and the
      children / roots queries;
    - [Branched] (component NodeVisualizationBranched): pan and zoom state,
      the lane based layout [calculateNodePositions] and [getConnections];
    - [RealTime] (component RealTimeAgentVisualization): grid layout of
      visual nodes, edge list and edge rendering, pan and zoom.

    JavaScript numbers are modelled by rationals [Q] where the source divides
    or multiplies by decimal constants (the viewport scale, the canvas
    height), and by [nat] for array indices, lengths and levels.  Arrays are
    lists, [Set<string>] is [gset string], optional fields are [option]. *)

From Stdlib Require Import QArith Qminmax ZArith Lia Lqa.
From stdpp Require Import base gmap sets list strings pretty.

Local Open Scope string_scope.
Local Open Scope list_scope.

(** ** JavaScript helpers *)

(** [hay.includes(needle)]: substring test. *)
Fixpoint includes (needle hay : string) : bool :=
  if String.prefix needle hay then true
  else match hay with
       | EmptyString => false
       | String _ rest => includes needle rest
       end.

(** [Math.max] and [Math.min] on (non-NaN) numbers. *)
Definition Math_max (a b : Q) : Q := Qmax a b.
Definition Math_min (a b : Q) : Q := Qmin a b.

(** [a > b] on numbers. *)
Definition gtb (a b : Q) : bool :=
  match (b ?= a)%Q with Lt => true | _ => false end.

(** An array index or a length used as a number. *)
Definition num (n : nat) : Q := inject_Z (Z.of_nat n).

(** [arr.forEach((a, index) => ...)] with the mutated locals threaded as a
    state [S]. *)
Fixpoint forEach_from {A S : Type} (f : S -> A -> nat -> S)
    (i : nat) (l : list A) (s : S) : S :=
  match l with
  | [] => s
  | a :: l' => forEach_from f (Datatypes.S i) l' (f s a i)
  end.

Definition forEach {A S : Type} (f : S -> A -> nat -> S) (l : list A) (s : S) : S :=
  forEach_from f 0 l s.

(** [arr.find(p)]: the first element that satisfies [p]. *)
Fixpoint find_first {A : Type} (p : A -> bool) (l : list A) : option A :=
  match l with
  | [] => None
  | a :: l' => if p a then Some a else find_first p l'
  end.

(** ** Data model (types/index.ts) *)

Inductive NodeType :=
| data_fetch | analysis | decision | inference | validation | spawn.

Inductive NodeStatus := pending | in_progress | completed | error.

(** The payload is an untyped bag ([Record<string, any>]); the components
    only probe a field for truthiness or read an array of node ids from it,
    so a value is a scalar, an array of strings, or some other object. *)
Inductive JValue :=
| JNull
| JBool (b : bool)
| JNum (q : Q)
| JStr (s : string)
| JArr (items : list string)
| JOther.

Record AgentNode := mkNode {
  id : string;
  type : NodeType;
  label : string;
  description : string;
  status : NodeStatus;
  data : list (string * JValue);
  parent_id : option string;
  children_ids : list string;
  created_at : string;
  completed_at : option string
}.

Definition NodeType_eqb (a b : NodeType) : bool :=
  match a, b with
  | data_fetch, data_fetch | analysis, analysis | decision, decision
  | inference, inference | validation, validation | spawn, spawn => true
  | _, _ => false
  end.

(** Truthiness of an optional string ([if (node.parent_id)], [!node.parent_id]):
    [undefined] and the empty string are falsy. *)
Definition truthy_str (o : option string) : bool :=
  match o with
  | Some s => negb (String.eqb s "")
  | None => false
  end.

(** [node.parent_id === parentId] for a string [parentId]. *)
Definition parent_is (parentId : string) (node : AgentNode) : bool :=
  match parent_id node with
  | Some s => String.eqb s parentId
  | None => false
  end.

(** Field probe [obj?.key]. *)
Fixpoint get_field (key : string) (fields : list (string * JValue)) : option JValue :=
  match fields with
  | [] => None
  | (k, v) :: rest => if String.eqb k key then Some v else get_field key rest
  end.

(** Truthiness of a probed value. *)
Definition truthy (o : option JValue) : bool :=
  match o with
  | None | Some JNull => false
  | Some (JBool b) => b
  | Some (JNum q) => negb (Qeq_bool q 0)
  | Some (JStr s) => negb (String.eqb s "")
  | Some (JArr _) | Some JOther => true
  end.

(** ** The page (app/page.tsx) *)

Module Home.

Record InvestigationData := {
  investigation_id : string;
  inv_status : string;
  message : string;
  timestamp : string
}.

(** The messages [ws.onmessage] distinguishes by [update.type]; a
    [node_update] carries the node record. *)
Inductive InvestigationUpdate :=
| node_update (node : AgentNode)
| investigation_complete
| error_update
| other_update (type : string).

(** A WebSocket handle; [closed] records that [close()] was called on it. *)
Record WebSocket := { closed : bool }.

Record State := mkState {
  investigationData : option InvestigationData;
  nodes : list AgentNode;
  isLoading : bool;
  currentWebSocket : option WebSocket;
  timeoutRef : bool  (* a safety timeout is armed *)
}.

Definition initial : State :=
  {| investigationData := None; nodes := []; isLoading := false;
     currentWebSocket := None; timeoutRef := false |}.

Definition close_ws (o : option WebSocket) : option WebSocket :=
  match o with
  | Some _ => Some {| closed := true |}
  | None => None
  end.

(** [ws.onmessage]: a node update is appended to the node list
    ([setNodes(prev => [...prev, update.node])]); completion and error stop
    loading, close the socket and clear the timeout. *)
Definition onmessage (update : InvestigationUpdate) (st : State) : State :=
  match update with
  | node_update node =>
      {| investigationData := investigationData st;
         nodes := nodes st ++ [node];
         isLoading := isLoading st;
         currentWebSocket := currentWebSocket st;
         timeoutRef := timeoutRef st |}
  | investigation_complete | error_update =>
      {| investigationData := investigationData st;
         nodes := nodes st;
         isLoading := false;
         currentWebSocket := close_ws (currentWebSocket st);
         timeoutRef := false |}
  | other_update _ => st
  end.

(** [handleReset]: closes and forgets the socket, clears the timeout, and
    resets the page's own state. *)
Definition handleReset (st : State) : State :=
  {| investigationData := None;
     nodes := [];
     isLoading := false;
     currentWebSocket := None;
     timeoutRef := false |}.

(** Processing a sequence of messages in arrival order. *)
Definition ingest_all (updates : list InvestigationUpdate) (st : State) : State :=
  fold_left (fun s u => onmessage u s) updates st.

End Home.

(** ** Expansion flags: [Set<string>] toggled by node id *)

(** The body shared by [toggleNodeExpansion], [toggleChildNodes] and
    [handleNodeClick]: copy the set, delete the id if present, add it
    otherwise. *)
Definition toggle (nodeId : string) (prev : gset string) : gset string :=
  if decide (nodeId ∈ prev) then prev ∖ {[nodeId]} else prev ∪ {[nodeId]}.

(** ** Component NodeVisualization (horizontal card flow) *)

Module Horizontal.

Record State := mkState {
  expandedNodes : gset string;
  showChildNodes : gset string
}.

Definition initial : State :=
  {| expandedNodes := ∅; showChildNodes := ∅ |}.

Definition toggleNodeExpansion (nodeId : string) (st : State) : State :=
  {| expandedNodes := toggle nodeId (expandedNodes st);
     showChildNodes := showChildNodes st |}.

Definition toggleChildNodes (nodeId : string) (st : State) : State :=
  {| expandedNodes := expandedNodes st;
     showChildNodes := toggle nodeId (showChildNodes st) |}.

(** [nodes.filter(node => node.parent_id === parentId)] *)
Definition getChildNodes (nodes : list AgentNode) (parentId : string) : list AgentNode :=
  List.filter (parent_is parentId) nodes.

(** [nodes.filter(node => !node.parent_id)] *)
Definition getRootNodes (nodes : list AgentNode) : list AgentNode :=
  List.filter (fun node => negb (truthy_str (parent_id node))) nodes.

Definition isLargeInferenceNode (node : AgentNode) : bool :=
  NodeType_eqb (type node) inference &&
  (includes "Master Inference" (label node) ||
   includes "Comprehensive" (label node) ||
   truthy (get_field "executive_summary" (data node))).

End Horizontal.

(** ** Component NodeVisualizationBranched (lane layout with pan and zoom) *)

Module Branched.

Local Open Scope Q_scope.

Record ViewState := mkView {
  scale : Q;
  translateX : Q;
  translateY : Q
}.

Record Dimensions := { width : Q; height : Q }.

Record Point := mkPoint { px : Q; py : Q }.

Record MouseEvent := { clientX : Q; clientY : Q }.

(** A wheel event is a mouse event (pointer position) with scroll deltas. *)
Record WheelEvent := { pointer : MouseEvent; deltaY : Q }.

Definition initialDimensions : Dimensions := {| width := 1200; height := 800 |}.

Definition initialView : ViewState :=
  {| scale := 1; translateX := 0; translateY := 0 |}.

(** *** Pan and zoom handlers

    A handler closes over the values of the render it was created in
    ([viewState], [isDragging], [dragStart]); the functional updater
    [setViewState(prev => ...)] receives the state current when the update
    is applied.  Both are arguments here. *)

Definition handleMouseDown (viewState : ViewState) (e : MouseEvent) : bool * Point :=
  (true, {| px := clientX e - translateX viewState;
            py := clientY e - translateY viewState |}).

Definition handleMouseMove (isDragging : bool) (dragStart : Point)
    (e : MouseEvent) (prev : ViewState) : ViewState :=
  if negb isDragging then prev
  else {| scale := scale prev;
          translateX := clientX e - px dragStart;
          translateY := clientY e - py dragStart |}.

Definition handleWheel (viewState : ViewState) (e : WheelEvent)
    (prev : ViewState) : ViewState :=
  let scaleChange := if gtb (deltaY e) 0 then 0.9 else 1.1 in
  let newScale := Math_max 0.1 (Math_min 3 (scale viewState * scaleChange)) in
  {| scale := newScale;
     translateX := translateX prev;
     translateY := translateY prev |}.

Definition resetView : ViewState :=
  {| scale := 1; translateX := 0; translateY := 0 |}.

Definition zoomIn (prev : ViewState) : ViewState :=
  {| scale := Math_min 3 (scale prev * 1.2);
     translateX := translateX prev;
     translateY := translateY prev |}.

Definition zoomOut (prev : ViewState) : ViewState :=
  {| scale := Math_max 0.1 (scale prev * 0.8);
     translateX := translateX prev;
     translateY := translateY prev |}.

(** The SVG group transform [translate(tx,ty) scale(s)] applied to a canvas
    point: where the point lands on the screen. *)
Definition transform (v : ViewState) (p : Point) : Point :=
  {| px := translateX v + scale v * px p;
     py := translateY v + scale v * py p |}.

(** The view states the component can be in: the initial one and whatever
    the handlers produce from reachable ones.  The wheel handler may run
    with the view state of an earlier render. *)
Inductive reachable : ViewState -> Prop :=
| reach_initial : reachable initialView
| reach_move isDragging dragStart e prev :
    reachable prev -> reachable (handleMouseMove isDragging dragStart e prev)
| reach_wheel viewState e prev :
    reachable viewState -> reachable prev ->
    reachable (handleWheel viewState e prev)
| reach_reset : reachable resetView
| reach_zoomIn prev : reachable prev -> reachable (zoomIn prev)
| reach_zoomOut prev : reachable prev -> reachable (zoomOut prev).

(** The user gestures, for running a sequence of them (each handler sees
    the current state). *)
Inductive Gesture :=
| Drag (dragStart : Point) (e : MouseEvent)
| Wheel (e : WheelEvent)
| ZoomIn
| ZoomOut
| ResetView.

Definition gesture (v : ViewState) (g : Gesture) : ViewState :=
  match g with
  | Drag dragStart e => handleMouseMove true dragStart e v
  | Wheel e => handleWheel v e v
  | ZoomIn => zoomIn v
  | ZoomOut => zoomOut v
  | ResetView => resetView
  end.

Definition gestures (gs : list Gesture) (v : ViewState) : ViewState :=
  fold_left gesture gs v.

(** *** Layout *)

Record NodePosition := mkPos {
  node : AgentNode;
  x : Q;
  y : Q;
  level : nat;
  branch : nat
}.

Definition nodeWidth : Q := 280.
Definition nodeHeight : Q := 120.
Definition levelSpacing : Q := 320.
Definition branchSpacing : Q := 140.

(** The six arrays the nodes are sorted into. *)
Record Groups := mkGroups {
  mainFlow : list AgentNode;
  newsBranch : list AgentNode;
  financialBranch : list AgentNode;
  marketBranch : list AgentNode;
  validationNodes : list AgentNode;
  finalNodes : list AgentNode
}.

Definition noGroups : Groups := mkGroups [] [] [] [] [] [].

(** The body of [nodes.forEach(node => ...)]: an if / else-if chain on the
    label (and, for validation, the type) with no final else. *)
Definition groupNode (g : Groups) (node : AgentNode) (_ : nat) : Groups :=
  if includes "Price Data" (label node) || includes "Agent Decision" (label node) then
    mkGroups (mainFlow g ++ [node]) (newsBranch g) (financialBranch g)
             (marketBranch g) (validationNodes g) (finalNodes g)
  else if includes "News" (label node) || includes "Headlines" (label node) then
    mkGroups (mainFlow g) (newsBranch g ++ [node]) (financialBranch g)
             (marketBranch g) (validationNodes g) (finalNodes g)
  else if includes "Earnings" (label node) || includes "Financial" (label node) then
    mkGroups (mainFlow g) (newsBranch g) (financialBranch g ++ [node])
             (marketBranch g) (validationNodes g) (finalNodes g)
  else if includes "Market" (label node) || includes "Sector" (label node) then
    mkGroups (mainFlow g) (newsBranch g) (financialBranch g)
             (marketBranch g ++ [node]) (validationNodes g) (finalNodes g)
  else if NodeType_eqb (type node) validation then
    mkGroups (mainFlow g) (newsBranch g) (financialBranch g)
             (marketBranch g) (validationNodes g ++ [node]) (finalNodes g)
  else if includes "Master" (label node) || includes "Final Analysis" (label node) then
    mkGroups (mainFlow g) (newsBranch g) (financialBranch g)
             (marketBranch g) (validationNodes g) (finalNodes g ++ [node])
  else g.

Definition groups (nodes : list AgentNode) : Groups :=
  forEach groupNode nodes noGroups.

Record Branch := mkBranch {
  bnodes : list AgentNode;
  yOffset : Q;
  name : string
}.

Definition calculateNodePositions (dimensions : Dimensions)
    (nodes : list AgentNode) : list NodePosition :=
  if Nat.eqb (length nodes) 0 then [] else
  let positions : list NodePosition := [] in
  let g := groups nodes in
  let currentLevel := 0%nat in
  (* Position main flow nodes horizontally *)
  let '(positions, currentLevel) :=
    forEach (fun '(positions, currentLevel) node index =>
      (positions ++ [ {| node := node;
                         x := 100 + num index * levelSpacing;
                         y := height dimensions / 2;
                         level := index;
                         branch := 0%nat |} ],
       Nat.max currentLevel (index + 1)%nat))
      (mainFlow g) (positions, currentLevel) in
  (* Position branch nodes *)
  let branches :=
    [ mkBranch (newsBranch g) (-200) "news";
      mkBranch (financialBranch g) 0 "financial";
      mkBranch (marketBranch g) 200 "market" ] in
  let positions :=
    forEach (fun positions branch branchIndex =>
      forEach (fun positions node nodeIndex =>
        positions ++ [ {| node := node;
                          x := 100 + num (currentLevel + nodeIndex) * levelSpacing;
                          y := height dimensions / 2 + yOffset branch + num nodeIndex * 40;
                          level := (currentLevel + nodeIndex)%nat;
                          branch := (branchIndex + 1)%nat |} ])
        (bnodes branch) positions)
      branches positions in
  (* Position validation nodes *)
  let validationLevel :=
    (currentLevel + list_max (2 :: map (fun b => length (bnodes b)) branches))%nat in
  let positions :=
    forEach (fun positions node index =>
      positions ++ [ {| node := node;
                        x := 100 + num validationLevel * levelSpacing;
                        y := height dimensions / 2 + num index * branchSpacing;
                        level := validationLevel;
                        branch := 0%nat |} ])
      (validationNodes g) positions in
  (* Position final nodes *)
  let positions :=
    forEach (fun positions node index =>
      positions ++ [ {| node := node;
                        x := 100 + num (validationLevel + 1) * levelSpacing;
                        y := height dimensions / 2;
                        level := (validationLevel + 1)%nat;
                        branch := 0%nat |} ])
      (finalNodes g) positions in
  positions.

(** *** Connections *)

Record Connection := mkConn {
  from : Point;
  to : Point;
  ctype : string
}.

(** [p.node.id === parent_id] against a possibly undefined [parent_id]. *)
Definition id_is (o : option string) (p : NodePosition) : bool :=
  match o with
  | Some s => String.eqb (id (node p)) s
  | None => false
  end.

Definition getConnections (nodePositions : list NodePosition) : list Connection :=
  forEach (fun connections nodePos _ =>
    let connections :=
      if truthy_str (parent_id (node nodePos)) then
        match find_first (id_is (parent_id (node nodePos))) nodePositions with
        | Some parentPos =>
            connections ++ [ {| from := mkPoint (x parentPos) (y parentPos);
                                to := mkPoint (x nodePos) (y nodePos);
                                ctype := "parent" |} ]
        | None => connections
        end
      else connections in
    (* Add connections to children *)
    if Nat.ltb 0 (length (children_ids (node nodePos))) then
      forEach (fun connections childId _ =>
        match find_first (id_is (Some childId)) nodePositions with
        | Some childPos =>
            connections ++ [ {| from := mkPoint (x nodePos) (y nodePos);
                                to := mkPoint (x childPos) (y childPos);
                                ctype := "validation" |} ]
        | None => connections
        end)
        (children_ids (node nodePos)) connections
    else connections)
    nodePositions [].

(** *** Canvas size and node texts *)

(** The bounding rectangle of the SVG's parent element. *)
Record Rect := { rect_width : Q; rect_height : Q }.

(** [updateDimensions]: run on mount and on every window resize; without a
    parent element the dimensions stay as they are. *)
Definition updateDimensions (parentRect : option Rect) (prev : Dimensions) : Dimensions :=
  match parentRect with
  | Some rect =>
      {| width := Math_max 1200 (rect_width rect - 32);
         height := Math_max 800 (rect_height rect - 32) |}
  | None => prev
  end.

(** The node title: [label.length > 35 ? label.slice(0, 35) + "..." : label].
    Strings are sequences of code units. *)
Definition nodeTitle (label : string) : string :=
  if Nat.ltb 35 (String.length label)
  then String.substring 0 35 label +:+ "..."
  else label.

(** The node description, cut at 80 code units in the same way. *)
Definition nodeDescription (description : string) : string :=
  if Nat.ltb 80 (String.length description)
  then String.substring 0 80 description +:+ "..."
  else description.

End Branched.

(** ** Component RealTimeAgentVisualization (grid of visual nodes) *)

Module AgentAction.
Record t := {
  type : string;
  action_type : string;
  label : string;
  description : string;
  symbol : string;
  investigation_id : string;
  timestamp : string;
  data : list (string * JValue)
}.
End AgentAction.

Module VisualNode.
Record t := mk {
  id : string;
  type : string;
  label : string;
  description : string;
  x : Q;
  y : Q;
  width : Q;
  height : Q;
  data : list (string * JValue);
  parentId : option string;
  isInference : bool;
  isExpanded : bool
}.
End VisualNode.

Module Edge.
Inductive kind := normal | cross_validation | inference_edge.
Record t := mk {
  id : string;
  source : string;
  target : string;
  type : kind
}.
End Edge.

Module RealTime.

Local Open Scope Q_scope.

Definition initialView : Branched.ViewState :=
  Branched.mkView 0.8 100 50.

(** The three accumulators of the effect: [newVisualNodes], [newEdges] and
    the running [nodeIndex]. *)
Record Build := mkBuild {
  newVisualNodes : list VisualNode.t;
  newEdges : list Edge.t;
  nodeIndex : nat
}.

Definition isLargeInference (node : AgentNode) : bool :=
  NodeType_eqb (type node) inference &&
  (includes "Master Inference" (label node) ||
   includes "Comprehensive" (label node) ||
   truthy (get_field "executive_summary" (data node))).

(** First loop: agent actions become nodes on a six-column grid. *)
Definition addAction (b : Build) (action : AgentAction.t) (index : nat) : Build :=
  let visualNode :=
    {| VisualNode.id := "action_" +:+ pretty index;
       VisualNode.type := AgentAction.action_type action;
       VisualNode.label := AgentAction.label action;
       VisualNode.description := AgentAction.description action;
       VisualNode.x := 50 + num (index mod 6) * 220;
       VisualNode.y := 50 + num (index / 6) * 120;
       VisualNode.width := 200;
       VisualNode.height := 80;
       VisualNode.data := AgentAction.data action;
       VisualNode.parentId := None;
       VisualNode.isInference := false;
       VisualNode.isExpanded := false |} in
  mkBuild (newVisualNodes b ++ [visualNode]) (newEdges b) (nodeIndex b + 1)%nat.

(** Second loop: investigation nodes on a five-column grid, continuing the
    running index, with one edge per truthy [parent_id]. *)
Definition addNode (expandedNodes : gset string)
    (b : Build) (node : AgentNode) (index : nat) : Build :=
  let isLarge := isLargeInference node in
  let visualNode :=
    {| VisualNode.id := id node;
       VisualNode.type :=
         if NodeType_eqb (type node) inference then "inference"
         else if NodeType_eqb (type node) analysis then "analysis"
         else "data_fetch";
       VisualNode.label := label node;
       VisualNode.description := description node;
       VisualNode.x := 50 + num (nodeIndex b mod 5) * 260;
       VisualNode.y := 200 + num (nodeIndex b / 5) * 150;
       VisualNode.width := if isLarge then 400 else 240;
       VisualNode.height := if isLarge then 200 else 100;
       VisualNode.data := data node;
       VisualNode.parentId := parent_id node;
       VisualNode.isInference := isLarge;
       VisualNode.isExpanded := bool_decide (id node ∈ expandedNodes) |} in
  let edges :=
    match parent_id node with
    | Some parent =>
        if truthy_str (Some parent) then
          newEdges b ++ [ Edge.mk ("edge_" +:+ parent +:+ "_" +:+ id node)
                                  parent (id node) Edge.normal ]
        else newEdges b
    | None => newEdges b
    end in
  mkBuild (newVisualNodes b ++ [visualNode]) edges (nodeIndex b + 1)%nat.

(** [parentId !== node.parent_id] *)
Definition differs (parentId : string) (o : option string) : bool :=
  match o with
  | Some s => negb (String.eqb parentId s)
  | None => true
  end.

(** Third loop: cross-validation edges from [data.parent_nodes]. *)
Definition addCrossEdges (b : Build) (node : AgentNode) (_ : nat) : Build :=
  match get_field "parent_nodes" (data node) with
  | Some (JArr parent_nodes) =>
      forEach (fun b parentId _ =>
        if differs parentId (parent_id node) then
          mkBuild (newVisualNodes b)
                  (newEdges b ++ [ Edge.mk ("cross_" +:+ parentId +:+ "_" +:+ id node)
                                           parentId (id node) Edge.cross_validation ])
                  (nodeIndex b)
        else b)
        parent_nodes b
  | _ => b
  end.

(** The effect that rebuilds [visualNodes] and [edges] whenever [nodes],
    [agentActions] or [expandedNodes] change. *)
Definition rebuild (nodes : list AgentNode) (agentActions : list AgentAction.t)
    (expandedNodes : gset string) : list VisualNode.t * list Edge.t :=
  let b := mkBuild [] [] 0 in
  let b := forEach addAction agentActions b in
  let b := forEach (addNode expandedNodes) nodes b in
  let b := forEach addCrossEdges nodes b in
  (newVisualNodes b, newEdges b).

Definition handleWheel (e : Branched.WheelEvent) (prev : Branched.ViewState)
    : Branched.ViewState :=
  let scaleFactor := if gtb (Branched.deltaY e) 0 then 0.9 else 1.1 in
  {| Branched.scale := Math_max 0.2 (Math_min 2 (Branched.scale prev * scaleFactor));
     Branched.translateX := Branched.translateX prev;
     Branched.translateY := Branched.translateY prev |}.

Definition handleMouseMove (isDragging : bool) (dragStart : Branched.Point)
    (e : Branched.MouseEvent) (prev : Branched.ViewState) : Branched.ViewState :=
  if negb isDragging then prev
  else {| Branched.scale := Branched.scale prev;
          Branched.translateX := Branched.clientX e - Branched.px dragStart;
          Branched.translateY := Branched.clientY e - Branched.py dragStart |}.

Definition handleNodeClick (nodeId : string) (prev : gset string) : gset string :=
  toggle nodeId prev.

Definition resetView : Branched.ViewState := Branched.mkView 0.8 100 50.

Inductive reachable : Branched.ViewState -> Prop :=
| reach_initial : reachable initialView
| reach_move isDragging dragStart e prev :
    reachable prev -> reachable (handleMouseMove isDragging dragStart e prev)
| reach_wheel e prev : reachable prev -> reachable (handleWheel e prev)
| reach_reset : reachable resetView.

(** *** Rendering the edges *)

Record Line := mkLine {
  key : string;
  x1 : Q; y1 : Q; x2 : Q; y2 : Q;
  isCrossValidation : bool
}.

Definition has_id (s : string) (n : VisualNode.t) : bool :=
  String.eqb (VisualNode.id n) s.

Definition is_cross (k : Edge.kind) : bool :=
  match k with Edge.cross_validation => true | _ => false end.

(** The callback of [edges.map]: [None] stands for the [null] returned when
    an end of the edge is not among the visual nodes. *)
Definition renderEdge (visualNodes : list VisualNode.t) (edge : Edge.t) : option Line :=
  match find_first (has_id (Edge.source edge)) visualNodes,
        find_first (has_id (Edge.target edge)) visualNodes with
  | Some sourceNode, Some targetNode =>
      Some {| key := Edge.id edge;
              x1 := VisualNode.x sourceNode + VisualNode.width sourceNode / 2;
              y1 := VisualNode.y sourceNode + VisualNode.height sourceNode;
              x2 := VisualNode.x targetNode + VisualNode.width targetNode / 2;
              y2 := VisualNode.y targetNode;
              isCrossValidation := is_cross (Edge.type edge) |}
  | _, _ => None
  end.

Definition renderEdges (visualNodes : list VisualNode.t) (edges : list Edge.t)
    : list (option Line) :=
  map (renderEdge visualNodes) edges.

(** Height of the node rectangle: an expanded node grows in place. *)
Definition rectHeight (n : VisualNode.t) : Q :=
  if VisualNode.isExpanded n then Math_max (VisualNode.height n) 300
  else VisualNode.height n.

(** The node title:
    [label.length > 25 ? label.substring(0, 22) + "..." : label]. *)
Definition nodeTitle (label : string) : string :=
  if Nat.ltb 25 (String.length label)
  then String.substring 0 22 label +:+ "..."
  else label.

(** The collapsed content preview, cut to 97 code units plus dots when
    longer than 100. *)
Definition contentPreview (content : string) : string :=
  if Nat.ltb 100 (String.length content)
  then String.substring 0 97 content +:+ "..."
  else content.

End RealTime.

(** ** The page with its mounted visualization

    [Home] renders the visualization component unconditionally, so the
    component stays mounted for the life of the page and keeps its local
    state (expansion flags, view state, canvas dimensions) across renders;
    the page's handlers reach only the page's own state, passing [nodes]
    down as a prop. *)

Module Page.

Record State := mkState {
  home : Home.State;
  expansion : Horizontal.State;
  viewState : Branched.ViewState;
  dimensions : Branched.Dimensions
}.

Definition initial : State :=
  {| home := Home.initial;
     expansion := Horizontal.initial;
     viewState := Branched.initialView;
     dimensions := Branched.initialDimensions |}.

Inductive Event :=
| Message (update : Home.InvestigationUpdate)
| ToggleExpansion (nodeId : string)
| View (g : Branched.Gesture)
| PressReset.

Definition step (st : State) (ev : Event) : State :=
  match ev with
  | Message update =>
      mkState (Home.onmessage update (home st)) (expansion st) (viewState st) (dimensions st)
  | ToggleExpansion nodeId =>
      mkState (home st) (Horizontal.toggleNodeExpansion nodeId (expansion st))
              (viewState st) (dimensions st)
  | View g =>
      mkState (home st) (expansion st) (Branched.gesture (viewState st) g) (dimensions st)
  | PressReset =>
      mkState (Home.handleReset (home st)) (expansion st) (viewState st) (dimensions st)
  end.

Definition run (evs : list Event) (st : State) : State := fold_left step evs st.

(** What a render pass reads: positions, connections, view state and
    expansion flags. *)
Record Snapshot := mkSnapshot {
  positions : list Branched.NodePosition;
  edges : list Branched.Connection;
  snapView : Branched.ViewState;
  expansionState : gset string
}.

Definition snapshot (st : State) : Snapshot :=
  let nodePositions :=
    Branched.calculateNodePositions (dimensions st) (Home.nodes (home st)) in
  {| positions := nodePositions;
     edges := Branched.getConnections nodePositions;
     snapView := viewState st;
     expansionState := Horizontal.expandedNodes (expansion st) |}.

End Page.

(** ** Component NodeVisualization (square grid of circles)

    The third variant lays the nodes out on a near-square grid that fills
    the canvas. *)

Module SimpleGrid.

Local Open Scope Q_scope.

Definition initialDimensions : Branched.Dimensions :=
  {| Branched.width := 800; Branched.height := 600 |}.

(** [updateDimensions]: the width follows the parent, the height has a
    floor of 600. *)
Definition updateDimensions (parentRect : option Branched.Rect)
    (prev : Branched.Dimensions) : Branched.Dimensions :=
  match parentRect with
  | Some rect =>
      {| Branched.width := Branched.rect_width rect - 32;
         Branched.height := Math_max 600 (Branched.rect_height rect - 32) |}
  | None => prev
  end.

(** [Math.ceil(Math.sqrt(total))] for an array length [total]. *)
Definition gridCols (total : nat) : nat := Nat.sqrt_up total.

(** [Math.ceil(total / cols)] for array lengths. *)
Definition gridRows (total : nat) : nat :=
  let cols := gridCols total in
  ((total + cols - 1) / cols)%nat.

(** [getNodePosition(index, total)], called with [index < total] only (the
    callers are [nodes.map] callbacks and a successful [findIndex]). *)
Definition getNodePosition (dimensions : Branched.Dimensions)
    (index total : nat) : Branched.Point :=
  let cols := gridCols total in
  let rows := gridRows total in
  let col := (index mod cols)%nat in
  let row := (index / cols)%nat in
  {| Branched.px := (Branched.width dimensions / (num cols + 1)) * (num col + 1);
     Branched.py := (Branched.height dimensions / (num rows + 1)) * (num row + 1) |}.

(** [nodes.findIndex(n => n.id === parent_id)]: [None] stands for [-1]. *)
Fixpoint findIndex_from (p : AgentNode -> bool) (i : nat) (l : list AgentNode) : option nat :=
  match l with
  | [] => None
  | a :: l' => if p a then Some i else findIndex_from p (S i) l'
  end.

Definition findIndex (p : AgentNode -> bool) (l : list AgentNode) : option nat :=
  findIndex_from p 0 l.

Definition node_has_id (o : option string) (n : AgentNode) : bool :=
  match o with
  | Some s => String.eqb (id n) s
  | None => false
  end.

(** The connection line drawn for the node at [index], if any. *)
Definition connectionLine (dimensions : Branched.Dimensions) (nodes : list AgentNode)
    (node : AgentNode) (index : nat) : option (Branched.Point * Branched.Point) :=
  if negb (truthy_str (parent_id node)) then None
  else match findIndex (node_has_id (parent_id node)) nodes with
       | None => None
       | Some parentIndex =>
           Some (getNodePosition dimensions parentIndex (length nodes),
                 getNodePosition dimensions index (length nodes))
       end.

(** The label under a circle:
    [label.length > 15 ? label.slice(0, 15) + "..." : label]. *)
Definition nodeTitle (label : string) : string :=
  if Nat.ltb 15 (String.length label)
  then String.substring 0 15 label +:+ "..."
  else label.

End SimpleGrid.

(** ** Component InvestigationForm

    The submit handler validates the form before it calls
    [onInvestigationStart].  The string and date primitives of the platform
    are parameters: [trim] and [toUpperCase] of strings, the time value of
    [new Date(s)] ([None] for an invalid date, on which every comparison is
    false), the current time, and the formatted range of a preset. *)

Module Form.

Inductive DateMode := preset | custom.

Record State := mkState {
  symbol : string;
  dateMode : DateMode;
  presetRange : string;
  customStartDate : string;
  customEndDate : string;
  error : string
}.

Definition initial : State :=
  {| symbol := ""; dateMode := preset; presetRange := "30d";
     customStartDate := ""; customEndDate := ""; error := "" |}.

(** What a submission does: it sets an error message and returns, or it
    calls [onInvestigationStart(symbol, {start_date, end_date})].  The
    page's handler catches its own failures, so the [catch] around the call
    is not modelled. *)
Inductive Outcome :=
| Rejected (message : string)
| Started (symbol start_date end_date : string).

(** [a >= b] and [a > b] on time values that may be NaN. *)
Definition date_ge (a b : option Z) : bool :=
  match a, b with
  | Some x, Some y => Z.leb y x
  | _, _ => false
  end.

Definition date_gt (a b : option Z) : bool :=
  match a, b with
  | Some x, Some y => Z.ltb y x
  | _, _ => false
  end.

Definition empty (s : string) : bool := String.eqb s "".

Section Submit.

Variable trim : string -> string.
Variable toUpperCase : string -> string.
Variable parseDate : string -> option Z.
Variable today : Z.
Variable presetDates : string -> string * string.

Definition handleSubmit (st : State) : Outcome :=
  if empty (trim (symbol st)) then Rejected "Please enter a stock symbol"
  else match dateMode st with
       | custom =>
           if empty (customStartDate st) || empty (customEndDate st)
           then Rejected "Please select both start and end dates"
           else
             let startDate := parseDate (customStartDate st) in
             let endDate := parseDate (customEndDate st) in
             if date_ge startDate endDate
             then Rejected "Start date must be before end date"
             else if date_gt endDate (Some today)
             then Rejected "End date cannot be in the future"
             else Started (trim (toUpperCase (symbol st)))
                          (customStartDate st) (customEndDate st)
       | preset =>
           let '(start_date, end_date) := presetDates (presetRange st) in
           Started (trim (toUpperCase (symbol st))) start_date end_date
       end.

(** The form state after the submission: the error is cleared first and
    set again on a rejection. *)
Definition submitted (st : State) : State :=
  {| symbol := symbol st; dateMode := dateMode st; presetRange := presetRange st;
     customStartDate := customStartDate st; customEndDate := customEndDate st;
     error := match handleSubmit st with
              | Rejected message => message
              | Started _ _ _ => ""
              end |}.

End Submit.

(** [handleReset] of the form: every field back to its initial value (and
    the page's [onReset] is called). *)
Definition handleReset (st : State) : State := initial.

End Form.

(** ** Notions used to state the properties *)

(** [forEach] with a push of [g a index] builds this list. *)
Fixpoint mapi_from {A B : Type} (g : A -> nat -> B) (i : nat) (l : list A) : list B :=
  match l with
  | [] => []
  | a :: l' => g a i :: mapi_from g (S i) l'
  end.

(** The lane a node is sorted into by [Branched.groupNode], if any. *)
Inductive Lane :=
| MainLane | NewsLane | FinancialLane | MarketLane | ValidationLane | FinalLane.

Definition lanes : list Lane :=
  [MainLane; NewsLane; FinancialLane; MarketLane; ValidationLane; FinalLane].

Definition Lane_eqb (a b : Lane) : bool :=
  match a, b with
  | MainLane, MainLane | NewsLane, NewsLane | FinancialLane, FinancialLane
  | MarketLane, MarketLane | ValidationLane, ValidationLane
  | FinalLane, FinalLane => true
  | _, _ => false
  end.

Definition lane_nodes (l : Lane) (g : Branched.Groups) : list AgentNode :=
  match l with
  | MainLane => Branched.mainFlow g
  | NewsLane => Branched.newsBranch g
  | FinancialLane => Branched.financialBranch g
  | MarketLane => Branched.marketBranch g
  | ValidationLane => Branched.validationNodes g
  | FinalLane => Branched.finalNodes g
  end.

(** Which array [Branched.groupNode] pushes a node to: the lane [l] such
    that the node is added to [lane_nodes l], read off the step itself. *)
Definition lane_of (node : AgentNode) : option Lane :=
  List.find (fun l => Nat.ltb 0 (length (lane_nodes l (Branched.groupNode Branched.noGroups node 0))))
            lanes.

Definition in_lane (l : Lane) (node : AgentNode) : bool :=
  match lane_of node with
  | Some l' => Lane_eqb l l'
  | None => false
  end.

Definition thematic (l : Lane) : bool :=
  match l with
  | NewsLane | FinancialLane | MarketLane => true
  | _ => false
  end.

(** The level at which the thematic lanes start: the value of
    [currentLevel] after the main-flow loop. *)
Definition currentLevelOf (nodes : list AgentNode) : nat :=
  length (Branched.mainFlow (Branched.groups nodes)).

Definition maxLaneSize (nodes : list AgentNode) : nat :=
  let g := Branched.groups nodes in
  Nat.max (length (Branched.newsBranch g))
          (Nat.max (length (Branched.financialBranch g))
                   (length (Branched.marketBranch g))).

(** The value of [validationLevel]. *)
Definition validationLevelOf (nodes : list AgentNode) : nat :=
  currentLevelOf nodes + Nat.max 2 (maxLaneSize nodes).

(** The position pushed for the node at [index] of lane [l], given the
    values of [currentLevel] and [validationLevel]. *)
Definition place (dimensions : Branched.Dimensions) (currentLevel validationLevel : nat)
    (l : Lane) (node : AgentNode) (index : nat) : Branched.NodePosition :=
  let centre := (Branched.height dimensions / 2)%Q in
  let inBranch (yOffset : Q) (branchIndex : nat) :=
    Branched.mkPos node
      (100 + num (currentLevel + index) * Branched.levelSpacing)%Q
      (centre + yOffset + num index * 40)%Q
      (currentLevel + index) (branchIndex + 1) in
  match l with
  | MainLane =>
      Branched.mkPos node (100 + num index * Branched.levelSpacing)%Q centre index 0
  | NewsLane => inBranch (-200)%Q 0
  | FinancialLane => inBranch 0%Q 1
  | MarketLane => inBranch 200%Q 2
  | ValidationLane =>
      Branched.mkPos node
        (100 + num validationLevel * Branched.levelSpacing)%Q
        (centre + num index * Branched.branchSpacing)%Q
        validationLevel 0
  | FinalLane =>
      Branched.mkPos node
        (100 + num (validationLevel + 1) * Branched.levelSpacing)%Q
        centre (validationLevel + 1) 0
  end.

(** The positions lane by lane, for given level parameters. *)
Definition layoutWith (dimensions : Branched.Dimensions) (currentLevel validationLevel : nat)
    (nodes : list AgentNode) : list Branched.NodePosition :=
  concat (map (fun l => mapi_from (place dimensions currentLevel validationLevel l) 0
                                  (List.filter (in_lane l) nodes))
              lanes).

(** The position the layout holds for a node id: the first entry whose node
    has that id, as [getConnections] resolves it. *)
Definition positionOf (dimensions : Branched.Dimensions) (nodes : list AgentNode)
    (nodeId : string) : option Branched.NodePosition :=
  find_first (Branched.id_is (Some nodeId)) (Branched.calculateNodePositions dimensions nodes).

(** The largest level among the positions of main-flow and thematic nodes. *)
Definition maxAssignedLevel (positions : list Branched.NodePosition) : nat :=
  list_max (map Branched.level
    (List.filter (fun p => match lane_of (Branched.node p) with
                           | Some MainLane => true
                           | Some l => thematic l
                           | None => false
                           end) positions)).

(** The validation level as the prose of the specification words it:
    the largest assigned level plus [max(2, maxLaneSize)]. *)
Definition statedValidationLevel (dimensions : Branched.Dimensions)
    (nodes : list AgentNode) : nat :=
  maxAssignedLevel (Branched.calculateNodePositions dimensions nodes)
  + Nat.max 2 (maxLaneSize nodes).

(** The two canvas components and the scale bounds each one clamps to. *)
Inductive Canvas := BranchedCanvas | RealTimeCanvas.

Definition minScale (c : Canvas) : Q :=
  match c with BranchedCanvas => 0.1 | RealTimeCanvas => 0.2 end.

Definition maxScale (c : Canvas) : Q :=
  match c with BranchedCanvas => 3 | RealTimeCanvas => 2 end.

Definition reachableIn (c : Canvas) : Branched.ViewState -> Prop :=
  match c with
  | BranchedCanvas => Branched.reachable
  | RealTimeCanvas => RealTime.reachable
  end.

(** Sample nodes for the examples. *)
Definition sample (nodeId : string) (t : NodeType) (lbl : string)
    (parent : option string) (children : list string) : AgentNode :=
  {| id := nodeId; type := t; label := lbl; description := "";
     status := completed; data := []; parent_id := parent;
     children_ids := children; created_at := ""; completed_at := None |}.

(** A node sorted into the main flow or a thematic lane: the nodes placed
    before the validation level is computed. *)
Definition beforeValidation (nodes : list AgentNode) (n : AgentNode) : Prop :=
  let g := Branched.groups nodes in
  In n (Branched.mainFlow g) \/ In n (Branched.newsBranch g) \/
  In n (Branched.financialBranch g) \/ In n (Branched.marketBranch g).

Definition priceData : AgentNode := sample "n1" data_fetch "Price Data Fetch" None ["n2"; "n3"].
Definition newsSentiment : AgentNode := sample "n2" analysis "News Sentiment" (Some "n1") [].
Definition headlines : AgentNode := sample "n3" analysis "Headlines Scan" (Some "n1") [].
Definition crossCheck : AgentNode := sample "n4" validation "Cross Check" (Some "n2") [].
Definition agentDecision : AgentNode := sample "n5" decision "Agent Decision" None [].
Definition technical : AgentNode := sample "n6" analysis "Technical Indicators" (Some "n1") [].

(** A main-flow node, two news nodes and a validation node. *)
Definition fourNodes : list AgentNode :=
  [priceData; newsSentiment; headlines; crossCheck].

(** Resolving an id lane by lane: the first node with that id in a list,
    with its index, and the first lane (in layout order) that holds one. *)
Fixpoint find_at (nodeId : string) (i : nat) (l : list AgentNode) : option (AgentNode * nat) :=
  match l with
  | [] => None
  | a :: l' => if String.eqb (id a) nodeId then Some (a, i) else find_at nodeId (S i) l'
  end.

Fixpoint find_lane (nodeId : string) (nodes : list AgentNode) (ls : list Lane)
    : option (Lane * AgentNode * nat) :=
  match ls with
  | [] => None
  | l :: ls' =>
      match find_at nodeId 0 (List.filter (in_lane l) nodes) with
      | Some (a, j) => Some (l, a, j)
      | None => find_lane nodeId nodes ls'
      end
  end.

(** A news node alone, then joined by a main-flow node. *)
Definition newsOnly : list AgentNode := [newsSentiment].
Definition laterMain : list AgentNode := [agentDecision].

(** Whether the grouping loop keeps a node at all. *)
Definition positioned (node : AgentNode) : bool :=
  match lane_of node with Some _ => true | None => false end.

(** A session: five nodes arrive, two are expanded, the user zooms in,
    then the page is reset. *)
Definition fiveArrivals : list Page.Event :=
  map (fun n => Page.Message (Home.node_update n))
      [priceData; newsSentiment; headlines; crossCheck; agentDecision].

Definition beforeReset : Page.State :=
  Page.run (fiveArrivals ++ [Page.ToggleExpansion "n1"; Page.ToggleExpansion "n2";
                             Page.View Branched.ZoomIn])
           Page.initial.

(** The canvas origin, and the part of a visual node that says where it is
    drawn. *)
Definition origin : Branched.Point := Branched.mkPoint 0 0.

Definition geometry (n : VisualNode.t) : string * Q * Q * Q * Q :=
  (VisualNode.id n, VisualNode.x n, VisualNode.y n,
   VisualNode.width n, VisualNode.height n).

(** The point a layout position is drawn at. *)
Definition pointOf (p : Branched.NodePosition) : Branched.Point :=
  Branched.mkPoint (Branched.x p) (Branched.y p).

(** The nodes a sequence of messages adds to the store. *)
Definition arrivals (updates : list Home.InvestigationUpdate) : list AgentNode :=
  flat_map (fun u => match u with Home.node_update node => [node] | _ => [] end) updates.

(** Messages that end an investigation. *)
Definition terminal (u : Home.InvestigationUpdate) : bool :=
  match u with
  | Home.investigation_complete | Home.error_update => true
  | _ => false
  end.

(** A user drags from one pointer position to another on the lane canvas:
    mouse down, then a mouse move handled with the anchor of that press. *)
Definition dragTo (v : Branched.ViewState) (down move : Branched.MouseEvent)
    : Branched.ViewState :=
  let '(isDragging, dragStart) := Branched.handleMouseDown v down in
  Branched.handleMouseMove isDragging dragStart move v.

(** Two layout entries are drawn apart: at different levels (hence at
    different x) or at different heights. *)
Definition apart (p q : Branched.NodePosition) : Prop :=
  Branched.level p <> Branched.level q \/ ~ (Branched.y p == Branched.y q)%Q.

Definition inFinalLane (p : Branched.NodePosition) : Prop :=
  lane_of (Branched.node p) = Some FinalLane.

(** The number of nodes sorted into a lane. *)
Definition laneSize (l : Lane) (nodes : list AgentNode) : nat :=
  length (lane_nodes l (Branched.groups nodes)).

(** The top-left corner of a visual node of the grid component, and the
    corners the two loops of the effect hand out: the [i]-th agent action
    and the node that receives the running index [k]. *)
Definition corner (v : VisualNode.t) : Q * Q := (VisualNode.x v, VisualNode.y v).

Definition actionCorner (i : nat) : Q * Q :=
  (50 + num (i mod 6) * 220, 50 + num (i / 6) * 120)%Q.

Definition nodeCorner (k : nat) : Q * Q :=
  (50 + num (k mod 5) * 260, 200 + num (k / 5) * 150)%Q.

Definition sameCorner (c d : Q * Q) : Prop :=
  (fst c == fst d)%Q /\ (snd c == snd d)%Q.

(** What an edge of the grid component stands for in the node list. *)
Definition edgeJustified (nodes : list AgentNode) (e : Edge.t) : Prop :=
  match Edge.type e with
  | Edge.normal =>
      exists node, In node nodes /\ Edge.target e = id node
                   /\ parent_id node = Some (Edge.source e) /\ Edge.source e <> ""
  | Edge.cross_validation =>
      exists node parent_nodes,
        In node nodes /\ Edge.target e = id node
        /\ get_field "parent_nodes" (data node) = Some (JArr parent_nodes)
        /\ In (Edge.source e) parent_nodes
        /\ parent_id node <> Some (Edge.source e)
  | Edge.inference_edge => False
  end.

(** * Properties *)

(** ** Loops as list functions *)

Lemma forEach_from_push {A B : Type} (g : A -> nat -> B) (l : list A) :
  forall i s, forEach_from (fun s a i => s ++ [g a i]) i l s = s ++ mapi_from g i l.
Proof.
  induction l as [|a l IH]; intros i s; simpl.
  - now rewrite app_nil_r.
  - rewrite IH, <- app_assoc. reflexivity.
Qed.

Lemma forEach_from_push_level {A B : Type} (g : A -> nat -> B) (l : list A) :
  forall i s currentLevel,
    forEach_from (fun '(s, currentLevel) a i =>
                    (s ++ [g a i], Nat.max currentLevel (i + 1))) i l (s, currentLevel)
    = (s ++ mapi_from g i l,
       Nat.max currentLevel (match l with [] => 0 | _ => i + length l end)).
Proof.
  induction l as [|a l IH]; intros i s cl; simpl.
  - now rewrite app_nil_r, Nat.max_0_r.
  - rewrite IH, <- app_assoc. simpl. f_equal.
    destruct l; simpl length; rewrite <- Nat.max_assoc; f_equal; lia.
Qed.

Lemma mapi_from_app {A B : Type} (g : A -> nat -> B) (l l' : list A) :
  forall i, mapi_from g i (l ++ l') = mapi_from g i l ++ mapi_from g (i + length l) l'.
Proof.
  induction l as [|a l IH]; intros i; simpl.
  - now rewrite Nat.add_0_r.
  - rewrite IH. now replace (S i + length l) with (i + S (length l)) by lia.
Qed.

Lemma mapi_from_length {A B : Type} (g : A -> nat -> B) (l : list A) :
  forall i, length (mapi_from g i l) = length l.
Proof. induction l; intros; simpl; auto. Qed.

Lemma in_mapi_from {A B : Type} (g : A -> nat -> B) (l : list A) (b : B) :
  forall i, In b (mapi_from g i l) ->
            exists a j, In a l /\ j < length l /\ b = g a (i + j).
Proof.
  induction l as [|a l IH]; intros i H; simpl in *; [contradiction|].
  destruct H as [<- | H].
  - exists a, 0. split; [now left|]. split; [lia|]. now rewrite Nat.add_0_r.
  - destruct (IH _ H) as (a' & j & Ha & Hj & ->).
    exists a', (S j). split; [now right|]. split; [lia|]. f_equal. lia.
Qed.

Lemma find_first_app {A : Type} (p : A -> bool) (l l' : list A) :
  find_first p (l ++ l') =
  match find_first p l with Some a => Some a | None => find_first p l' end.
Proof. induction l as [|a l IH]; simpl; auto. destruct (p a); auto. Qed.

Lemma find_first_some {A : Type} (p : A -> bool) (l : list A) (a : A) :
  find_first p l = Some a -> In a l /\ p a = true.
Proof.
  induction l as [|b l IH]; simpl; [discriminate|].
  destruct (p b) eqn:E; intros H.
  - injection H as <-. auto.
  - destruct (IH H); auto.
Qed.

(** ** The grouping loop sorts by lane *)

Lemma groupNode_lane (l : Lane) (g : Branched.Groups) (node : AgentNode) (i : nat) :
  lane_nodes l (Branched.groupNode g node i)
  = lane_nodes l g ++ (if in_lane l node then [node] else []).
Proof.
  unfold in_lane, lane_of, Branched.groupNode.
  repeat match goal with
         | |- context [if ?c then _ else _] =>
             lazymatch c with
             | orb _ _ => destruct c eqn:?
             | NodeType_eqb _ _ => destruct c eqn:?
             end
         end;
    destruct l; simpl; rewrite ?app_nil_r; reflexivity.
Qed.

Lemma groups_from_lane (l : Lane) (nodes : list AgentNode) :
  forall i g, lane_nodes l (forEach_from Branched.groupNode i nodes g)
              = lane_nodes l g ++ List.filter (in_lane l) nodes.
Proof.
  induction nodes as [|n nodes IH]; intros i g; simpl.
  - now rewrite app_nil_r.
  - rewrite IH, groupNode_lane, <- app_assoc.
    destruct (in_lane l n); reflexivity.
Qed.

Lemma groups_lane (l : Lane) (nodes : list AgentNode) :
  lane_nodes l (Branched.groups nodes) = List.filter (in_lane l) nodes.
Proof.
  unfold Branched.groups, forEach. rewrite groups_from_lane. now destruct l.
Qed.

Lemma in_lane_lane_of (l : Lane) (node : AgentNode) :
  in_lane l node = true <-> lane_of node = Some l.
Proof.
  unfold in_lane. destruct (lane_of node) as [l'|].
  - destruct l, l'; simpl; split; intros H; try discriminate; try reflexivity;
      inversion H.
  - split; discriminate.
Qed.

(** ** The layout, lane by lane *)

Lemma level_after_loop {A : Type} (l : list A) :
  Nat.max 0 (match l with [] => 0 | _ :: _ => 0 + length l end) = length l.
Proof. now destruct l. Qed.

(** [calculateNodePositions] lists the lanes in order, each lane in arrival
    order; thematic lanes start at the number of main-flow nodes. *)
Lemma calculateNodePositions_layout dimensions nodes :
  Branched.calculateNodePositions dimensions nodes
  = layoutWith dimensions (currentLevelOf nodes) (validationLevelOf nodes) nodes.
Proof.
  unfold layoutWith, validationLevelOf, maxLaneSize, currentLevelOf. simpl map.
  rewrite <- !groups_lane. simpl lane_nodes.
  unfold Branched.calculateNodePositions.
  destruct (Nat.eqb (length nodes) 0) eqn:E.
  - apply Nat.eqb_eq in E. destruct nodes; [reflexivity | discriminate].
  - clear E. generalize (Branched.groups nodes) as g. intros g.
    unfold forEach. rewrite forEach_from_push_level, level_after_loop.
    cbn [forEach_from Branched.bnodes Branched.yOffset map list_max fold_right].
    rewrite !forEach_from_push, Nat.max_0_r.
    cbn [concat app]. rewrite app_nil_r, <- !app_assoc.
    reflexivity.
Qed.

Lemma node_place dimensions cl vl l a j :
  Branched.node (place dimensions cl vl l a j) = a.
Proof. now destruct l. Qed.

Lemma level_place dimensions cl vl l a j :
  Branched.level (place dimensions cl vl l a j)
  = match l with
    | MainLane => j
    | NewsLane | FinancialLane | MarketLane => cl + j
    | ValidationLane => vl
    | FinalLane => vl + 1
    end.
Proof. now destruct l. Qed.

Lemma in_layoutWith dimensions cl vl nodes p :
  In p (layoutWith dimensions cl vl nodes) ->
  exists l a j, lane_of a = Some l /\ In a nodes
                /\ j < length (List.filter (in_lane l) nodes)
                /\ p = place dimensions cl vl l a j.
Proof.
  unfold layoutWith. rewrite in_concat. intros (seg & Hseg & Hp).
  apply in_map_iff in Hseg. destruct Hseg as (l & <- & _).
  apply in_mapi_from in Hp. destruct Hp as (a & j & Ha & Hj & ->).
  apply filter_In in Ha. destruct Ha as [Ha Hl].
  exists l, a, j. repeat split; auto. now apply in_lane_lane_of.
Qed.

Lemma in_group_lane l nodes a :
  In a (lane_nodes l (Branched.groups nodes)) -> lane_of a = Some l.
Proof.
  rewrite groups_lane. intros H. apply filter_In in H.
  now apply in_lane_lane_of.
Qed.

Lemma lane_size_le l nodes :
  thematic l = true ->
  length (List.filter (in_lane l) nodes) <= maxLaneSize nodes.
Proof.
  unfold maxLaneSize. rewrite <- (groups_lane l).
  destruct l; simpl; intros H; try discriminate; lia.
Qed.

Lemma beforeValidation_lane nodes a :
  beforeValidation nodes a ->
  exists l, lane_of a = Some l /\ (l = MainLane \/ thematic l = true).
Proof.
  intros [H | [H | [H | H]]];
    [ exists MainLane; apply (in_group_lane MainLane) in H
    | exists NewsLane; apply (in_group_lane NewsLane) in H
    | exists FinancialLane; apply (in_group_lane FinancialLane) in H
    | exists MarketLane; apply (in_group_lane MarketLane) in H ];
    auto.
Qed.

Lemma lane_beforeValidation nodes a l :
  In a (lane_nodes l (Branched.groups nodes)) ->
  l = MainLane \/ thematic l = true ->
  beforeValidation nodes a.
Proof.
  unfold beforeValidation.
  intros Hin [-> | Ht]; [now left|].
  destruct l; try discriminate; simpl in Hin; tauto.
Qed.

(** ** Validation level (C1) *)

Example fourNodes_levels :
  map Branched.level (Branched.calculateNodePositions Branched.initialDimensions fourNodes)
  = [0; 1; 2; 3].
Proof. reflexivity. Qed.

Example fourNodes_stated :
  maxAssignedLevel (Branched.calculateNodePositions Branched.initialDimensions fourNodes) = 2
  /\ statedValidationLevel Branched.initialDimensions fourNodes = 4.
Proof. split; reflexivity. Qed.

(** C1, as stated, fails: with one main-flow node and two news nodes the
    largest assigned level is 2 and the largest lane has size 2, so the
    stated level is 2 + max(2, 2) = 4, yet the validation node sits at
    level 3, only one level past the last news node. *)
Lemma validation_level_not_as_stated :
  let positions := Branched.calculateNodePositions Branched.initialDimensions fourNodes in
  let p := place Branched.initialDimensions 1 3 ValidationLane crossCheck 0 in
  In p positions
  /\ In (Branched.node p) (Branched.validationNodes (Branched.groups fourNodes))
  /\ Branched.level p <> statedValidationLevel Branched.initialDimensions fourNodes
  /\ Branched.level p < maxAssignedLevel positions + Nat.max 2 (maxLaneSize fourNodes).
Proof.
  cbv zeta. split; [|split; [|split]].
  - vm_compute. tauto.
  - vm_compute. tauto.
  - vm_compute. discriminate.
  - vm_compute. lia.
Qed.

(** C1, amended: a validation-lane node is placed at the number of
    main-flow nodes (the level where the thematic lanes start) plus
    max(2, size of the largest thematic lane); that level is strictly past
    the level of every main-flow and thematic-lane node. *)
Theorem validation_level_reserved dimensions nodes p :
  In p (Branched.calculateNodePositions dimensions nodes) ->
  In (Branched.node p) (Branched.validationNodes (Branched.groups nodes)) ->
  Branched.level p
  = length (Branched.mainFlow (Branched.groups nodes)) + Nat.max 2 (maxLaneSize nodes)
  /\ forall q, In q (Branched.calculateNodePositions dimensions nodes) ->
               beforeValidation nodes (Branched.node q) ->
               Branched.level q < Branched.level p.
Proof.
  rewrite calculateNodePositions_layout. intros Hp Hv.
  apply in_layoutWith in Hp. destruct Hp as (l & a & j & Hl & _ & _ & ->).
  rewrite node_place in Hv. apply (in_group_lane ValidationLane) in Hv.
  assert (l = ValidationLane) by congruence. subst l.
  rewrite level_place. split; [reflexivity|].
  intros q Hq Hb. apply in_layoutWith in Hq.
  destruct Hq as (l & b & k & Hlb & _ & Hk & ->).
  rewrite node_place in Hb. rewrite level_place.
  apply beforeValidation_lane in Hb. destruct Hb as (l' & Hl' & Hcase).
  assert (l' = l) by congruence. subst l'.
  unfold validationLevelOf.
  destruct Hcase as [-> | Ht].
  - rewrite <- (groups_lane MainLane) in Hk. unfold currentLevelOf. simpl in Hk. lia.
  - pose proof (lane_size_le l nodes Ht). destruct l; try discriminate; lia.
Qed.

Lemma validation_level_reserved_witness :
  let positions := Branched.calculateNodePositions Branched.initialDimensions fourNodes in
  let p := place Branched.initialDimensions 1 3 ValidationLane crossCheck 0 in
  In p positions
  /\ In (Branched.node p) (Branched.validationNodes (Branched.groups fourNodes))
  /\ Branched.level p
     = length (Branched.mainFlow (Branched.groups fourNodes)) + Nat.max 2 (maxLaneSize fourNodes)
  /\ forall q, In q positions -> beforeValidation fourNodes (Branched.node q) ->
               Branched.level q < Branched.level p.
Proof.
  cbv zeta.
  assert (Hp : In (place Branched.initialDimensions 1 3 ValidationLane crossCheck 0)
                  (Branched.calculateNodePositions Branched.initialDimensions fourNodes))
    by (vm_compute; tauto).
  assert (Hv : In crossCheck (Branched.validationNodes (Branched.groups fourNodes)))
    by (vm_compute; tauto).
  split; [exact Hp|]. split; [exact Hv|].
  exact (validation_level_reserved Branched.initialDimensions fourNodes _ Hp Hv).
Defined.

(** ** Stability of positions under later arrivals (C2) *)

Lemma find_place dimensions cl vl l nodeId (nodes : list AgentNode) :
  forall i,
    find_first (Branched.id_is (Some nodeId)) (mapi_from (place dimensions cl vl l) i nodes)
    = match find_at nodeId i nodes with
      | Some (a, j) => Some (place dimensions cl vl l a j)
      | None => None
      end.
Proof.
  induction nodes as [|a nodes IH]; intros i; simpl; [reflexivity|].
  rewrite node_place. destruct (String.eqb (id a) nodeId); auto.
Qed.

Lemma find_at_none nodeId (extra : list AgentNode) :
  Forall (fun e => id e <> nodeId) extra -> forall i, find_at nodeId i extra = None.
Proof.
  induction 1 as [|e extra He _ IH]; intros i; simpl; [reflexivity|].
  destruct (String.eqb_spec (id e) nodeId); [contradiction | apply IH].
Qed.

Lemma find_at_app nodeId (l extra : list AgentNode) :
  Forall (fun e => id e <> nodeId) extra ->
  forall i, find_at nodeId i (l ++ extra) = find_at nodeId i l.
Proof.
  intros He. induction l as [|a l IH]; intros i; simpl.
  - now apply find_at_none.
  - destruct (String.eqb (id a) nodeId); auto.
Qed.

Lemma find_at_some nodeId (l : list AgentNode) a j :
  forall i, find_at nodeId i l = Some (a, j) -> In a l.
Proof.
  induction l as [|b l IH]; intros i; simpl; [discriminate|].
  destruct (String.eqb (id b) nodeId).
  - intros [= <- _]. now left.
  - intros H. right. eapply IH, H.
Qed.

Lemma Forall_filter {A : Type} (P : A -> Prop) (f : A -> bool) (l : list A) :
  Forall P l -> Forall P (List.filter f l).
Proof.
  induction 1 as [|a l Ha _ IH]; simpl; [constructor|].
  destruct (f a); [constructor|]; auto.
Qed.

Lemma find_layoutWith dimensions cl vl nodeId nodes (ls : list Lane) :
  find_first (Branched.id_is (Some nodeId))
    (concat (map (fun l => mapi_from (place dimensions cl vl l) 0
                                     (List.filter (in_lane l) nodes)) ls))
  = match find_lane nodeId nodes ls with
    | Some (l, a, j) => Some (place dimensions cl vl l a j)
    | None => None
    end.
Proof.
  induction ls as [|l ls IH]; simpl; [reflexivity|].
  rewrite find_first_app, find_place.
  destruct (find_at nodeId 0 (List.filter (in_lane l) nodes)) as [[a j]|]; auto.
Qed.

Lemma find_lane_app nodeId nodes extra (ls : list Lane) :
  Forall (fun e => id e <> nodeId) extra ->
  find_lane nodeId (nodes ++ extra) ls = find_lane nodeId nodes ls.
Proof.
  intros He. induction ls as [|l ls IH]; simpl; [reflexivity|].
  rewrite List.filter_app, find_at_app by now apply Forall_filter.
  now rewrite IH.
Qed.

Lemma find_lane_some nodeId nodes (ls : list Lane) l a j :
  find_lane nodeId nodes ls = Some (l, a, j) ->
  In a (lane_nodes l (Branched.groups nodes)).
Proof.
  induction ls as [|l' ls IH]; simpl; [discriminate|].
  destruct (find_at nodeId 0 (List.filter (in_lane l') nodes)) as [[b k]|] eqn:E; auto.
  intros [= -> -> ->]. rewrite groups_lane. eapply find_at_some, E.
Qed.

Example newsOnly_before :
  option_map Branched.level (positionOf Branched.initialDimensions newsOnly "n2") = Some 0.
Proof. reflexivity. Qed.

(** C2, as stated, fails: a news node alone sits at level 0; once an
    unrelated main-flow node (no parent, no children, another lane, another
    id) arrives, the recomputed layout moves the news node to level 1. *)
Lemma level_moves_on_unrelated_arrival :
  parent_id agentDecision = None /\ children_ids agentDecision = []
  /\ lane_of agentDecision = Some MainLane /\ lane_of newsSentiment = Some NewsLane
  /\ option_map Branched.level
       (positionOf Branched.initialDimensions newsOnly "n2") = Some 0
  /\ option_map Branched.level
       (positionOf Branched.initialDimensions (newsOnly ++ laterMain) "n2") = Some 1.
Proof. repeat split; reflexivity. Qed.

(** C2, amended: when further nodes (with other ids) are ingested, an
    already positioned node keeps its lane and its vertical position; a
    main-flow node keeps its whole position; a thematic-lane node keeps it
    as long as the main flow does not grow; a validation or final node
    keeps it as long as the validation level stays the same. *)
Theorem position_stable_under_arrivals dimensions nodes extra nodeId p :
  positionOf dimensions nodes nodeId = Some p ->
  Forall (fun e => id e <> nodeId) extra ->
  exists p',
    positionOf dimensions (nodes ++ extra) nodeId = Some p'
    /\ Branched.node p' = Branched.node p
    /\ Branched.branch p' = Branched.branch p
    /\ Branched.y p' = Branched.y p
    /\ (In (Branched.node p) (Branched.mainFlow (Branched.groups nodes)) -> p' = p)
    /\ (Branched.mainFlow (Branched.groups (nodes ++ extra))
        = Branched.mainFlow (Branched.groups nodes) ->
        beforeValidation nodes (Branched.node p) -> p' = p)
    /\ (validationLevelOf (nodes ++ extra) = validationLevelOf nodes ->
        ~ beforeValidation nodes (Branched.node p) -> p' = p).
Proof.
  unfold positionOf. rewrite !calculateNodePositions_layout.
  unfold layoutWith. rewrite !find_layoutWith. intros Hp He.
  rewrite (find_lane_app _ _ _ _ He).
  destruct (find_lane nodeId nodes lanes) as [[[l a] j]|] eqn:E; [|discriminate].
  injection Hp as <-. pose proof (find_lane_some _ _ _ _ _ _ E) as Hin.
  eexists. split; [reflexivity|]. rewrite !node_place.
  split; [reflexivity|]. split; [now destruct l|]. split; [now destruct l|].
  split; [|split].
  - intros Hm. apply (in_group_lane MainLane) in Hm.
    apply in_group_lane in Hin. assert (l = MainLane) by congruence.
    now subst l.
  - intros Hm Hb. unfold currentLevelOf. rewrite Hm.
    apply in_group_lane in Hin.
    apply beforeValidation_lane in Hb. destruct Hb as (l' & Hl' & Hcase).
    assert (l' = l) by congruence. subst l'.
    destruct Hcase as [-> | Ht]; [reflexivity|].
    destruct l; try discriminate; reflexivity.
  - intros Hv Hb. rewrite Hv.
    destruct l; try reflexivity; exfalso; apply Hb;
      apply (lane_beforeValidation _ _ _ Hin); auto.
Qed.

Lemma position_stable_under_arrivals_witness :
  let p := place Branched.initialDimensions 1 3 NewsLane newsSentiment 0 in
  positionOf Branched.initialDimensions fourNodes "n2" = Some p
  /\ Forall (fun e => id e <> "n2") [technical]
  /\ exists p',
       positionOf Branched.initialDimensions (fourNodes ++ [technical]) "n2" = Some p'
       /\ Branched.node p' = Branched.node p
       /\ Branched.branch p' = Branched.branch p
       /\ Branched.y p' = Branched.y p
       /\ (In (Branched.node p) (Branched.mainFlow (Branched.groups fourNodes)) -> p' = p)
       /\ (Branched.mainFlow (Branched.groups (fourNodes ++ [technical]))
           = Branched.mainFlow (Branched.groups fourNodes) ->
           beforeValidation fourNodes (Branched.node p) -> p' = p)
       /\ (validationLevelOf (fourNodes ++ [technical]) = validationLevelOf fourNodes ->
           ~ beforeValidation fourNodes (Branched.node p) -> p' = p).
Proof.
  cbv zeta. split; [reflexivity|]. split; [repeat constructor; discriminate|].
  apply (position_stable_under_arrivals Branched.initialDimensions fourNodes
           [technical] "n2").
  - reflexivity.
  - repeat constructor. discriminate.
Defined.

(** ** Repeated arrival of the same node (C3) *)

Lemma layout_length dimensions nodes :
  length (Branched.calculateNodePositions dimensions nodes)
  = length (List.filter positioned nodes).
Proof.
  rewrite calculateNodePositions_layout. unfold layoutWith. simpl.
  rewrite !length_app, !mapi_from_length. simpl.
  induction nodes as [|a nodes IH]; [reflexivity|].
  cbn [List.filter].
  assert (H : forall l, in_lane l a
                        = match lane_of a with Some l' => Lane_eqb l l' | None => false end)
    by reflexivity.
  assert (Hp : positioned a = match lane_of a with Some _ => true | None => false end)
    by reflexivity.
  rewrite !H, Hp. destruct (lane_of a) as [[]|]; cbn [Lane_eqb length]; lia.
Qed.

(** C3, as stated, fails: the handler appends without looking for the id,
    so a node update processed twice leaves two copies in the store and two
    entries in the layout. *)
Lemma second_arrival_changes_state :
  let e := Home.node_update priceData in
  let once := Home.onmessage e Home.initial in
  let twice := Home.onmessage e once in
  Home.nodes twice <> Home.nodes once
  /\ Branched.calculateNodePositions Branched.initialDimensions (Home.nodes twice)
     <> Branched.calculateNodePositions Branched.initialDimensions (Home.nodes once).
Proof. cbv zeta. split; vm_compute; discriminate. Qed.

(** C3, amended: processing a node update a second time appends the node
    once more (the store holds two copies, and the layout one more entry
    when the node is sorted into a lane); only the other messages --
    completion, error, unknown types -- are idempotent. *)
Theorem second_arrival_appends (e : Home.InvestigationUpdate) (st : Home.State) :
  match e with
  | Home.node_update node =>
      Home.nodes (Home.onmessage e (Home.onmessage e st))
      = Home.nodes (Home.onmessage e st) ++ [node]
      /\ forall dimensions,
           length (Branched.calculateNodePositions dimensions
                     (Home.nodes (Home.onmessage e (Home.onmessage e st))))
           = length (Branched.calculateNodePositions dimensions
                       (Home.nodes (Home.onmessage e st)))
             + (if positioned node then 1 else 0)
  | _ => Home.onmessage e (Home.onmessage e st) = Home.onmessage e st
  end.
Proof.
  destruct e as [node| | |t]; simpl.
  - split; [reflexivity|]. intros dimensions.
    rewrite !layout_length, !List.filter_app, !length_app. simpl.
    destruct (positioned node); simpl; lia.
  - now destruct (Home.currentWebSocket st).
  - now destruct (Home.currentWebSocket st).
  - reflexivity.
Qed.

(** ** Nodes that match no rule (C4) *)

(** No entry of the layout belongs to a node the grouping loop skipped. *)
Lemma skipped_node_never_positioned dimensions nodes p :
  In p (Branched.calculateNodePositions dimensions nodes) ->
  positioned (Branched.node p) = true.
Proof.
  rewrite calculateNodePositions_layout. intros Hp.
  apply in_layoutWith in Hp. destruct Hp as (l & a & j & Hl & _ & _ & ->).
  rewrite node_place. unfold positioned. now rewrite Hl.
Qed.

(** C4, on the code: a node whose label has none of the keywords and whose
    type is not validation is pushed to none of the six arrays, so the
    layout has no entry for it instead of a default-lane entry: of the two
    nodes below only the first is positioned.  The grid component, fed the
    same two nodes, positions both. *)
Lemma unmatched_node_has_no_position :
  lane_of technical = None
  /\ Branched.calculateNodePositions Branched.initialDimensions [priceData; technical]
     = [place Branched.initialDimensions 1 3 MainLane priceData 0]
  /\ map VisualNode.id (fst (RealTime.rebuild [priceData; technical] [] ∅))
     = ["n1"; "n6"].
Proof. repeat split; reflexivity. Qed.

(** ** Reset (C5) *)

Lemma toggle_elem_of (a b : string) (s : gset string) :
  a ∈ toggle b s <-> (a ∈ s /\ a <> b) \/ (a = b /\ b ∉ s).
Proof.
  unfold toggle. destruct (decide (b ∈ s)) as [Hb|Hb].
  - rewrite elem_of_difference, elem_of_singleton. split.
    + intros [? ?]. now left.
    + intros [[? ?] | [-> ?]]; [easy | contradiction].
  - rewrite elem_of_union, elem_of_singleton. split.
    + intros [Ha | ->]; [left; split; [easy | congruence] | now right].
    + intros [[? ?] | [-> ?]]; [now left | now right].
Qed.

(** C5, as stated, fails: after five arrivals, two expansions and a zoom,
    reset empties positions and connections but the expansion set still
    holds both ids and the view is still zoomed. *)
Lemma reset_keeps_expansion_and_view :
  let s := Page.snapshot (Page.step beforeReset Page.PressReset) in
  Page.positions s = [] /\ Page.edges s = []
  /\ "n1" ∈ Page.expansionState s /\ "n2" ∈ Page.expansionState s
  /\ Page.expansionState s <> ∅
  /\ Page.snapView s <> Branched.initialView.
Proof.
  cbv zeta.
  assert (E : Page.expansionState (Page.snapshot (Page.step beforeReset Page.PressReset))
              = toggle "n2" (toggle "n1" ∅)) by reflexivity.
  rewrite E.
  assert (H1 : "n1" ∈ toggle "n2" (toggle "n1" ∅)).
  { rewrite !toggle_elem_of. left. split; [|discriminate].
    right. split; [reflexivity|]. apply not_elem_of_empty. }
  split; [reflexivity|]. split; [reflexivity|]. split; [exact H1|].
  split; [|split].
  - rewrite toggle_elem_of. right. split; [reflexivity|].
    rewrite toggle_elem_of. intros [[H _] | [H _]]; [|discriminate].
    now apply not_elem_of_empty in H.
  - intros E'. rewrite E' in H1. now apply not_elem_of_empty in H1.
  - vm_compute. discriminate.
Qed.

(** C5, amended: reset empties the node list, hence the positions and the
    connections of the next render; the view state and the expansion set
    belong to the visualization component and are left as they were. *)
Theorem reset_clears_nodes_only (st : Page.State) :
  let s := Page.snapshot (Page.step st Page.PressReset) in
  Page.positions s = [] /\ Page.edges s = []
  /\ Page.snapView s = Page.snapView (Page.snapshot st)
  /\ Page.expansionState s = Page.expansionState (Page.snapshot st).
Proof. repeat split. Qed.

(** ** Children of a node (C9) *)

Lemma nodes_ingest_all (updates : list Home.InvestigationUpdate) :
  forall st, Home.nodes (Home.ingest_all updates st) = Home.nodes st ++ arrivals updates.
Proof.
  unfold Home.ingest_all.
  induction updates as [|u updates IH]; intros st; simpl.
  - now rewrite app_nil_r.
  - rewrite IH. destruct u; simpl; [now rewrite <- app_assoc | reflexivity ..].
Qed.

Lemma filter_permutation {A : Type} (f : A -> bool) (l l' : list A) :
  Permutation l l' -> Permutation (List.filter f l) (List.filter f l').
Proof.
  induction 1 as [ | a l l' _ IH | a b l | l l' l'' _ IH1 _ IH2 ]; simpl.
  - constructor.
  - destruct (f a); [constructor|]; exact IH.
  - destruct (f a), (f b); try reflexivity. constructor.
  - etransitivity; eassumption.
Qed.

(** X3: whatever the order in which a batch of messages arrives, the
    children query returns the same nodes, up to order. *)
Lemma children_up_to_arrival_order (updates updates' : list Home.InvestigationUpdate)
    (st : Home.State) (parentId : string) :
  Permutation updates updates' ->
  Permutation
    (Horizontal.getChildNodes (Home.nodes (Home.ingest_all updates st)) parentId)
    (Horizontal.getChildNodes (Home.nodes (Home.ingest_all updates' st)) parentId).
Proof.
  intros H. unfold Horizontal.getChildNodes.
  rewrite !nodes_ingest_all, !List.filter_app.
  apply Permutation_app_head, filter_permutation.
  unfold arrivals. now apply Permutation_flat_map.
Qed.

Example children_in_either_order :
  Horizontal.getChildNodes
    (Home.nodes (Home.ingest_all [Home.node_update priceData; Home.node_update newsSentiment;
                                  Home.node_update crossCheck] Home.initial)) "n1"
  = [newsSentiment]
  /\ Horizontal.getChildNodes
       (Home.nodes (Home.ingest_all [Home.node_update crossCheck; Home.node_update newsSentiment;
                                     Home.node_update priceData] Home.initial)) "n1"
     = [newsSentiment].
Proof. split; reflexivity. Qed.

(** C9: for a parent [p] and a child [c] that names [p] as its parent,
    arriving in either order into a store that holds no other child of [p]
    ([p] not being its own parent), the children query for [p] yields
    exactly [[c]].  The query reads the [parent_id] links only, so the
    [children_ids] carried by [p] play no role. *)
Theorem children_independent_of_arrival_order (st : Home.State) (p c : AgentNode) :
  parent_id c = Some (id p) ->
  parent_is (id p) p = false ->
  Horizontal.getChildNodes (Home.nodes st) (id p) = [] ->
  Horizontal.getChildNodes
    (Home.nodes (Home.onmessage (Home.node_update c)
                   (Home.onmessage (Home.node_update p) st))) (id p) = [c]
  /\ Horizontal.getChildNodes
       (Home.nodes (Home.onmessage (Home.node_update p)
                      (Home.onmessage (Home.node_update c) st))) (id p) = [c].
Proof.
  intros Hc Hp Hst. unfold Horizontal.getChildNodes in *. simpl.
  assert (Hc' : parent_is (id p) c = true).
  { unfold parent_is. rewrite Hc. apply String.eqb_refl. }
  rewrite !List.filter_app, Hst. simpl. rewrite Hc', Hp. split; reflexivity.
Qed.

Lemma children_independent_of_arrival_order_witness :
  parent_id newsSentiment = Some (id priceData)
  /\ parent_is (id priceData) priceData = false
  /\ Horizontal.getChildNodes (Home.nodes Home.initial) (id priceData) = []
  /\ Horizontal.getChildNodes
       (Home.nodes (Home.onmessage (Home.node_update newsSentiment)
                      (Home.onmessage (Home.node_update priceData) Home.initial)))
       (id priceData) = [newsSentiment]
  /\ Horizontal.getChildNodes
       (Home.nodes (Home.onmessage (Home.node_update priceData)
                      (Home.onmessage (Home.node_update newsSentiment) Home.initial)))
       (id priceData) = [newsSentiment].
Proof.
  split; [reflexivity|]. split; [reflexivity|]. split; [reflexivity|].
  apply (children_independent_of_arrival_order Home.initial priceData newsSentiment);
    reflexivity.
Defined.

(** ** Zoom bounds (C6) *)

Lemma clamp_bounds (lo hi x : Q) :
  (lo <= hi)%Q ->
  (lo <= Math_max lo (Math_min hi x) <= hi)%Q.
Proof.
  intros H. unfold Math_max, Math_min. split.
  - apply Q.le_max_l.
  - apply Q.max_lub; [exact H | apply Q.le_min_l].
Qed.

Lemma branched_scale_bounds v :
  Branched.reachable v -> (0.1 <= Branched.scale v <= 3)%Q.
Proof.
  induction 1 as [ | dragging dragStart e prev _ IH | viewState e prev _ _ _ _
                 | | prev _ IH | prev _ IH ].
  - split; discriminate.
  - unfold Branched.handleMouseMove. now destruct dragging.
  - apply clamp_bounds. discriminate.
  - split; discriminate.
  - simpl. unfold Math_min. split.
    + apply Q.min_glb; [discriminate | lra].
    + apply Q.le_min_l.
  - simpl. unfold Math_max. split.
    + apply Q.le_max_l.
    + apply Q.max_lub; [discriminate | lra].
Qed.

Lemma realtime_scale_bounds v :
  RealTime.reachable v -> (0.2 <= Branched.scale v <= 2)%Q.
Proof.
  induction 1 as [ | dragging dragStart e prev _ IH | e prev _ _ | ].
  - split; discriminate.
  - unfold RealTime.handleMouseMove. now destruct dragging.
  - apply clamp_bounds. discriminate.
  - split; discriminate.
Qed.

Lemma gestures_reachable (gs : list Branched.Gesture) :
  forall v, Branched.reachable v -> Branched.reachable (Branched.gestures gs v).
Proof.
  unfold Branched.gestures.
  induction gs as [|g gs IH]; intros v Hv; simpl; [exact Hv|].
  apply IH. destruct g; simpl; constructor; assumption.
Qed.

Example zoom_in_saturates :
  Branched.scale (Branched.gestures (repeat Branched.ZoomIn 10) Branched.initialView) = 3%Q.
Proof. reflexivity. Qed.

Example zoom_out_saturates :
  Branched.scale (Branched.gestures (repeat Branched.ZoomOut 12) Branched.initialView) = 0.1%Q.
Proof. reflexivity. Qed.

(** C6: in either canvas component, every view state reachable from the
    initial one by any sequence of drags, wheel events (any delta, even
    handled with the view state of an earlier render), zoom buttons and
    view resets has its scale within the component's bounds. *)
Theorem zoom_scale_within_bounds (c : Canvas) (v : Branched.ViewState) :
  reachableIn c v -> (minScale c <= Branched.scale v <= maxScale c)%Q.
Proof.
  destruct c; simpl; [apply branched_scale_bounds | apply realtime_scale_bounds].
Qed.

Lemma zoom_scale_within_bounds_witness :
  let v := Branched.gestures
             [Branched.ZoomIn; Branched.Wheel {| Branched.pointer := {| Branched.clientX := 10; Branched.clientY := 20 |};
                                                 Branched.deltaY := -3 |};
              Branched.ZoomOut] Branched.initialView in
  reachableIn BranchedCanvas v
  /\ (minScale BranchedCanvas <= Branched.scale v <= maxScale BranchedCanvas)%Q.
Proof.
  cbv zeta.
  assert (H : reachableIn BranchedCanvas
                (Branched.gestures
                   [Branched.ZoomIn; Branched.Wheel {| Branched.pointer := {| Branched.clientX := 10; Branched.clientY := 20 |};
                                                       Branched.deltaY := -3 |};
                    Branched.ZoomOut] Branched.initialView)).
  { apply Branched.reach_zoomOut. apply Branched.reach_wheel.
    - apply Branched.reach_zoomIn, Branched.reach_initial.
    - apply Branched.reach_zoomIn, Branched.reach_initial. }
  split; [exact H|]. exact (zoom_scale_within_bounds BranchedCanvas _ H).
Defined.

(** ** Zoom leaves the translation alone (C10) *)

(** C10: wheel zoom, zoom-in and zoom-out change the scale only; the
    translation is the one of the state they update, the pointer position
    of the wheel event is not read, and so the canvas origin stays where it
    was on the screen. *)
Theorem zoom_changes_scale_only
    (viewState prev : Branched.ViewState) (e : Branched.WheelEvent)
    (elsewhere : Branched.MouseEvent) :
  let moved := {| Branched.pointer := elsewhere; Branched.deltaY := Branched.deltaY e |} in
  (Branched.translateX (Branched.handleWheel viewState e prev) = Branched.translateX prev
   /\ Branched.translateY (Branched.handleWheel viewState e prev) = Branched.translateY prev
   /\ Branched.translateX (Branched.zoomIn prev) = Branched.translateX prev
   /\ Branched.translateY (Branched.zoomIn prev) = Branched.translateY prev
   /\ Branched.translateX (Branched.zoomOut prev) = Branched.translateX prev
   /\ Branched.translateY (Branched.zoomOut prev) = Branched.translateY prev
   /\ Branched.translateX (RealTime.handleWheel e prev) = Branched.translateX prev
   /\ Branched.translateY (RealTime.handleWheel e prev) = Branched.translateY prev)
  /\ (Branched.handleWheel viewState moved prev = Branched.handleWheel viewState e prev
      /\ RealTime.handleWheel moved prev = RealTime.handleWheel e prev)
  /\ (forall zoomed,
        In zoomed [Branched.handleWheel viewState e prev; Branched.zoomIn prev;
                   Branched.zoomOut prev; RealTime.handleWheel e prev] ->
        (Branched.px (Branched.transform zoomed origin)
           == Branched.px (Branched.transform prev origin))%Q
        /\ (Branched.py (Branched.transform zoomed origin)
              == Branched.py (Branched.transform prev origin))%Q).
Proof.
  cbv zeta. split; [repeat split|]. split; [split; reflexivity|].
  intros zoomed Hz. simpl in Hz.
  destruct Hz as [<- | [<- | [<- | [<- | []]]]]; simpl; split; ring.
Qed.

Lemma zoom_changes_scale_only_witness :
  let e := {| Branched.pointer := {| Branched.clientX := 400; Branched.clientY := 300 |};
              Branched.deltaY := 5 |} in
  let prev := Branched.mkView 1.2 40 (-15) in
  In (Branched.zoomIn prev)
     [Branched.handleWheel prev e prev; Branched.zoomIn prev;
      Branched.zoomOut prev; RealTime.handleWheel e prev]
  /\ (Branched.px (Branched.transform (Branched.zoomIn prev) origin)
        == Branched.px (Branched.transform prev origin))%Q
  /\ (Branched.py (Branched.transform (Branched.zoomIn prev) origin)
        == Branched.py (Branched.transform prev origin))%Q.
Proof.
  cbv zeta.
  assert (H : In (Branched.zoomIn (Branched.mkView 1.2 40 (-15)))
                [Branched.handleWheel (Branched.mkView 1.2 40 (-15))
                   {| Branched.pointer := {| Branched.clientX := 400; Branched.clientY := 300 |};
                      Branched.deltaY := 5 |} (Branched.mkView 1.2 40 (-15));
                 Branched.zoomIn (Branched.mkView 1.2 40 (-15));
                 Branched.zoomOut (Branched.mkView 1.2 40 (-15));
                 RealTime.handleWheel
                   {| Branched.pointer := {| Branched.clientX := 400; Branched.clientY := 300 |};
                      Branched.deltaY := 5 |} (Branched.mkView 1.2 40 (-15))])
    by (right; left; reflexivity).
  split; [exact H|].
  exact (proj2 (proj2 (zoom_changes_scale_only
                         (Branched.mkView 1.2 40 (-15)) (Branched.mkView 1.2 40 (-15))
                         {| Branched.pointer := {| Branched.clientX := 400; Branched.clientY := 300 |};
                            Branched.deltaY := 5 |}
                         {| Branched.clientX := 0; Branched.clientY := 0 |}))
               _ H).
Defined.

(** ** Connections join positioned nodes (C7) *)

Lemma forEach_from_invariant {A S : Type} (P : S -> Prop) (Q : A -> Prop)
    (f : S -> A -> nat -> S) (l : list A) :
  (forall s a i, Q a -> P s -> P (f s a i)) ->
  Forall Q l -> forall i s, P s -> P (forEach_from f i l s).
Proof.
  intros Hf. induction 1 as [|a l Ha _ IH]; intros i s Hs; simpl; auto.
Qed.

Lemma id_is_some s p : Branched.id_is (Some s) p = true -> id (Branched.node p) = s.
Proof. unfold Branched.id_is. apply String.eqb_eq. Qed.

Lemma truthy_str_some o : truthy_str o = true -> exists s, o = Some s.
Proof. destruct o; [eauto | discriminate]. Qed.

(** C7: every connection of the lane layout runs between the points of two
    entries of the position list it was computed from -- a node and its
    parent, or a node and one of its listed children -- and every edge line
    the grid component draws runs between two of its visual nodes, the ones
    the edge names. *)
Theorem connections_join_positioned_nodes :
  (forall (nodePositions : list Branched.NodePosition) (c : Branched.Connection),
      In c (Branched.getConnections nodePositions) ->
      exists p q,
        In p nodePositions /\ In q nodePositions
        /\ Branched.from c = pointOf p /\ Branched.to c = pointOf q
        /\ (parent_id (Branched.node q) = Some (id (Branched.node p))
            \/ In (id (Branched.node q)) (children_ids (Branched.node p))))
  /\ (forall (visualNodes : list VisualNode.t) (edges : list Edge.t) (line : RealTime.Line),
         In (Some line) (RealTime.renderEdges visualNodes edges) ->
         exists edge sourceNode targetNode,
           In edge edges /\ In sourceNode visualNodes /\ In targetNode visualNodes
           /\ VisualNode.id sourceNode = Edge.source edge
           /\ VisualNode.id targetNode = Edge.target edge
           /\ RealTime.renderEdge visualNodes edge = Some line
           /\ RealTime.y1 line = (VisualNode.y sourceNode + VisualNode.height sourceNode)%Q
           /\ RealTime.y2 line = VisualNode.y targetNode).
Proof.
  split.
  - intros nodePositions.
    set (P := fun conns : list Branched.Connection =>
                forall c, In c conns ->
                  exists p q,
                    In p nodePositions /\ In q nodePositions
                    /\ Branched.from c = pointOf p /\ Branched.to c = pointOf q
                    /\ (parent_id (Branched.node q) = Some (id (Branched.node p))
                        \/ In (id (Branched.node q)) (children_ids (Branched.node p)))).
    assert (Hpush : forall conns c, P conns -> P [c] -> P (conns ++ [c])).
    { intros conns c Hc H1 c' Hin. apply in_app_or in Hin.
      destruct Hin as [Hin | Hin]; [apply Hc | apply H1]; exact Hin. }
    change (P (Branched.getConnections nodePositions)).
    unfold Branched.getConnections, forEach.
    apply (forEach_from_invariant P (fun a => In a nodePositions));
      [ | apply List.Forall_forall; auto | intros c [] ].
    intros conns nodePos _ Hin Hconns.
    assert (Hparent :
      P (if truthy_str (parent_id (Branched.node nodePos)) then
           match find_first (Branched.id_is (parent_id (Branched.node nodePos))) nodePositions with
           | Some parentPos =>
               conns ++ [ Branched.mkConn
                            (Branched.mkPoint (Branched.x parentPos) (Branched.y parentPos))
                            (Branched.mkPoint (Branched.x nodePos) (Branched.y nodePos))
                            "parent" ]
           | None => conns
           end
         else conns)).
    { destruct (truthy_str (parent_id (Branched.node nodePos))) eqn:Et; [|exact Hconns].
      destruct (truthy_str_some _ Et) as [s Hs]. rewrite Hs.
      destruct (find_first (Branched.id_is (Some s)) nodePositions) as [parentPos|] eqn:Ef;
        [|exact Hconns].
      apply find_first_some in Ef. destruct Ef as [Hpin Hid].
      apply Hpush; [exact Hconns|]. intros c [<- | []].
      exists parentPos, nodePos. repeat split; auto.
      left. rewrite Hs. f_equal. symmetry. now apply id_is_some. }
    destruct (Nat.ltb 0 (length (children_ids (Branched.node nodePos)))); [|exact Hparent].
    apply (forEach_from_invariant P (fun childId => In childId (children_ids (Branched.node nodePos))));
      [ | apply List.Forall_forall; auto | exact Hparent ].
    intros conns' childId _ Hchild Hconns'.
    destruct (find_first (Branched.id_is (Some childId)) nodePositions) as [childPos|] eqn:Ef;
      [|exact Hconns'].
    apply find_first_some in Ef. destruct Ef as [Hcin Hid].
    apply Hpush; [exact Hconns'|]. intros c [<- | []].
    exists nodePos, childPos. repeat split; auto.
    right. apply id_is_some in Hid. now rewrite Hid.
  - intros visualNodes edges line Hin. unfold RealTime.renderEdges in Hin.
    apply in_map_iff in Hin. destruct Hin as (edge & Hr & He).
    pose proof Hr as Hr'. unfold RealTime.renderEdge in Hr.
    destruct (find_first (RealTime.has_id (Edge.source edge)) visualNodes)
      as [sourceNode|] eqn:Es; [|discriminate].
    destruct (find_first (RealTime.has_id (Edge.target edge)) visualNodes)
      as [targetNode|] eqn:Et; [|discriminate].
    apply find_first_some in Es. apply find_first_some in Et.
    destruct Es as [Hs Hsid]. destruct Et as [Ht Htid].
    apply String.eqb_eq in Hsid. apply String.eqb_eq in Htid.
    injection Hr as <-. exists edge, sourceNode, targetNode. repeat split; auto.
Qed.

Lemma connections_join_positioned_nodes_witness :
  let nodePositions := Branched.calculateNodePositions Branched.initialDimensions fourNodes in
  let p := place Branched.initialDimensions 1 3 NewsLane newsSentiment 0 in
  let q := place Branched.initialDimensions 1 3 ValidationLane crossCheck 0 in
  let c := Branched.mkConn (pointOf p) (pointOf q) "parent" in
  In c (Branched.getConnections nodePositions)
  /\ exists p' q',
       In p' nodePositions /\ In q' nodePositions
       /\ Branched.from c = pointOf p' /\ Branched.to c = pointOf q'
       /\ (parent_id (Branched.node q') = Some (id (Branched.node p'))
           \/ In (id (Branched.node q')) (children_ids (Branched.node p'))).
Proof.
  cbv zeta.
  assert (H : In (Branched.mkConn
                    (pointOf (place Branched.initialDimensions 1 3 NewsLane newsSentiment 0))
                    (pointOf (place Branched.initialDimensions 1 3 ValidationLane crossCheck 0))
                    "parent")
                 (Branched.getConnections
                    (Branched.calculateNodePositions Branched.initialDimensions fourNodes)))
    by (vm_compute; tauto).
  split; [exact H|].
  exact (proj1 connections_join_positioned_nodes _ _ H).
Defined.

Example fourNodes_connections :
  length (Branched.getConnections
            (Branched.calculateNodePositions Branched.initialDimensions fourNodes)) = 5.
Proof. reflexivity. Qed.

(** A parent that has no position yields no connection. *)
Example orphan_has_no_connection :
  Branched.getConnections
    (Branched.calculateNodePositions Branched.initialDimensions [newsSentiment]) = [].
Proof. reflexivity. Qed.

(** The grid component keeps an edge to an absent parent in its edge list
    but draws nothing for it. *)
Example absent_parent_not_drawn :
  let '(visualNodes, edges) := RealTime.rebuild [newsSentiment] [] ∅ in
  map Edge.source edges = ["n1"]
  /\ RealTime.renderEdges visualNodes edges = [None].
Proof. split; reflexivity. Qed.

(** ** Expansion does not move nodes (C8) *)

Lemma addCrossEdges_nodes (nodes : list AgentNode) :
  forall i b,
    RealTime.newVisualNodes (forEach_from RealTime.addCrossEdges i nodes b)
    = RealTime.newVisualNodes b.
Proof.
  intros i b.
  apply (forEach_from_invariant
           (fun s => RealTime.newVisualNodes s = RealTime.newVisualNodes b)
           (fun _ => True)); [ | apply List.Forall_forall; auto | reflexivity ].
  intros s a j _ Hs. unfold RealTime.addCrossEdges.
  destruct (get_field "parent_nodes" (data a)) as [[]|]; try exact Hs.
  apply (forEach_from_invariant
           (fun s' => RealTime.newVisualNodes s' = RealTime.newVisualNodes b)
           (fun _ => True)); [ | apply List.Forall_forall; auto | exact Hs ].
  intros s' parentId k _ Hs'. now destruct (RealTime.differs parentId (parent_id a)).
Qed.

Lemma addNode_geometry (expanded expanded' : gset string) (nodes : list AgentNode) :
  forall i b b',
    map geometry (RealTime.newVisualNodes b) = map geometry (RealTime.newVisualNodes b') ->
    RealTime.nodeIndex b = RealTime.nodeIndex b' ->
    map geometry (RealTime.newVisualNodes
                    (forEach_from (RealTime.addNode expanded) i nodes b))
    = map geometry (RealTime.newVisualNodes
                      (forEach_from (RealTime.addNode expanded') i nodes b')).
Proof.
  induction nodes as [|a nodes IH]; intros i b b' Hg Hi; simpl; [exact Hg|].
  apply IH.
  - simpl. rewrite !map_app, Hg. simpl. unfold geometry at 2 4. simpl.
    now rewrite Hi.
  - simpl. now rewrite Hi.
Qed.

(** C8: toggling the expansion flag of a node leaves every entry of the
    computed lane layout as it was, and leaves the id, x, y, width and
    height of every visual node of the grid component as they were (only
    the [isExpanded] flag of the toggled node changes). *)
Theorem expansion_leaves_positions :
  (forall (st : Page.State) (nodeId : string),
      Page.positions (Page.snapshot (Page.step st (Page.ToggleExpansion nodeId)))
      = Page.positions (Page.snapshot st))
  /\ (forall (nodes : list AgentNode) (agentActions : list AgentAction.t)
             (expandedNodes : gset string) (nodeId : string),
         map geometry
             (fst (RealTime.rebuild nodes agentActions
                     (RealTime.handleNodeClick nodeId expandedNodes)))
         = map geometry (fst (RealTime.rebuild nodes agentActions expandedNodes))).
Proof.
  split; [reflexivity|].
  intros nodes agentActions expandedNodes nodeId.
  unfold RealTime.rebuild, forEach. simpl fst.
  rewrite !addCrossEdges_nodes. now apply addNode_geometry.
Qed.

Example expansion_sets_flag_only :
  let before := fst (RealTime.rebuild fourNodes [] ∅) in
  let after := fst (RealTime.rebuild fourNodes [] (RealTime.handleNodeClick "n2" ∅)) in
  map geometry after = map geometry before
  /\ map VisualNode.isExpanded before = [false; false; false; false]
  /\ map VisualNode.isExpanded after = [false; true; false; false].
Proof. cbv zeta. repeat split; vm_compute; reflexivity. Qed.

(** * Further properties of the code *)

(** ** The node store *)

(** X1: messages only ever append to the node store, in arrival order:
    after any batch the store is the old store followed by the nodes of the
    node updates; after a reset it holds exactly the nodes that arrived
    since. *)
Theorem store_is_append_only (updates : list Home.InvestigationUpdate) (st : Home.State) :
  Home.nodes (Home.ingest_all updates st) = Home.nodes st ++ arrivals updates
  /\ Home.nodes (Home.ingest_all updates (Home.handleReset st)) = arrivals updates
  /\ length (Home.nodes (Home.ingest_all updates st))
     = length (Home.nodes st)
       + length (List.filter (fun u => match u with Home.node_update _ => true | _ => false end)
                             updates).
Proof.
  rewrite !nodes_ingest_all. split; [reflexivity|]. split; [reflexivity|].
  rewrite length_app. f_equal. unfold arrivals.
  induction updates as [|u updates IH]; [reflexivity|].
  destruct u; simpl; auto.
Qed.

(** X2: the page is loading after a batch of messages exactly when it was
    loading before and no completion or error message was in the batch;
    messages never switch loading on and never arm the timeout. *)
Theorem loading_after_messages (updates : list Home.InvestigationUpdate) (st : Home.State) :
  Home.isLoading (Home.ingest_all updates st)
  = Home.isLoading st && forallb (fun u => negb (terminal u)) updates
  /\ Home.timeoutRef (Home.ingest_all updates st)
     = Home.timeoutRef st && forallb (fun u => negb (terminal u)) updates.
Proof.
  unfold Home.ingest_all. revert st.
  induction updates as [|u updates IH]; intros st; simpl.
  - now rewrite !andb_true_r.
  - destruct (IH (Home.onmessage u st)) as [-> ->].
    destruct u; simpl; rewrite ?andb_false_r; auto.
Qed.

Lemma children_up_to_arrival_order_witness :
  Permutation [Home.node_update priceData; Home.node_update newsSentiment]
              [Home.node_update newsSentiment; Home.node_update priceData]
  /\ Permutation
       (Horizontal.getChildNodes
          (Home.nodes (Home.ingest_all [Home.node_update priceData; Home.node_update newsSentiment]
                         Home.initial)) "n1")
       (Horizontal.getChildNodes
          (Home.nodes (Home.ingest_all [Home.node_update newsSentiment; Home.node_update priceData]
                         Home.initial)) "n1").
Proof.
  assert (H : Permutation [Home.node_update priceData; Home.node_update newsSentiment]
                          [Home.node_update newsSentiment; Home.node_update priceData])
    by apply perm_swap.
  split; [exact H|].
  exact (children_up_to_arrival_order _ _ Home.initial "n1" H).
Defined.

(** X4: roots and children split the store: a stored node with a falsy
    [parent_id] is a root and a child of no non-empty id; a stored node
    with a truthy [parent_id] is among the children of that id and is not a
    root. *)
Theorem roots_and_children_partition (nodes : list AgentNode) (n : AgentNode) :
  In n nodes ->
  (truthy_str (parent_id n) = false /\ In n (Horizontal.getRootNodes nodes)
   /\ forall parentId, parentId <> "" -> ~ In n (Horizontal.getChildNodes nodes parentId))
  \/ (exists parentId, parent_id n = Some parentId /\ parentId <> ""
      /\ In n (Horizontal.getChildNodes nodes parentId)
      /\ ~ In n (Horizontal.getRootNodes nodes)).
Proof.
  intros Hn. unfold Horizontal.getRootNodes, Horizontal.getChildNodes.
  destruct (truthy_str (parent_id n)) eqn:Et.
  - right. destruct (parent_id n) as [s|] eqn:Ep; [|discriminate].
    exists s. split; [reflexivity|]. simpl in Et.
    destruct (String.eqb_spec s ""); [discriminate|].
    split; [assumption|]. split.
    + apply filter_In. split; [exact Hn|]. unfold parent_is. rewrite Ep.
      apply String.eqb_refl.
    + rewrite filter_In. rewrite Ep. simpl.
      destruct (String.eqb_spec s ""); [contradiction|]. intros [_ H]. discriminate.
  - left. split; [reflexivity|]. split.
    + apply filter_In. split; [exact Hn|]. now rewrite Et.
    + intros parentId Hne. rewrite filter_In. intros [_ H].
      unfold parent_is in H. destruct (parent_id n) as [s|]; [|discriminate].
      apply String.eqb_eq in H. subst s. simpl in Et.
      destruct (String.eqb_spec parentId ""); [contradiction | discriminate].
Qed.

Lemma roots_and_children_partition_witness :
  In newsSentiment fourNodes
  /\ ((truthy_str (parent_id newsSentiment) = false
       /\ In newsSentiment (Horizontal.getRootNodes fourNodes)
       /\ forall parentId, parentId <> "" ->
            ~ In newsSentiment (Horizontal.getChildNodes fourNodes parentId))
      \/ (exists parentId, parent_id newsSentiment = Some parentId /\ parentId <> ""
          /\ In newsSentiment (Horizontal.getChildNodes fourNodes parentId)
          /\ ~ In newsSentiment (Horizontal.getRootNodes fourNodes))).
Proof.
  assert (H : In newsSentiment fourNodes) by (right; left; reflexivity).
  split; [exact H|]. exact (roots_and_children_partition fourNodes newsSentiment H).
Defined.

(** ** Expansion flags *)

Lemma toggle_flips (a b : string) (s : gset string) :
  a ∈ toggle b s <-> (a ∈ s <-> a <> b).
Proof.
  rewrite toggle_elem_of.
  destruct (decide (a = b)), (decide (a ∈ s)), (decide (b ∈ s)); subst; tauto.
Qed.

(** X5: toggling the same node twice restores the expansion set, and a
    toggle changes the membership of no other id. *)
Theorem toggle_twice_restores (nodeId : string) (expanded : gset string) :
  toggle nodeId (toggle nodeId expanded) = expanded
  /\ Horizontal.toggleNodeExpansion nodeId
       (Horizontal.toggleNodeExpansion nodeId
          (Horizontal.mkState expanded ∅)) = Horizontal.mkState expanded ∅
  /\ RealTime.handleNodeClick nodeId (RealTime.handleNodeClick nodeId expanded) = expanded
  /\ forall other, other <> nodeId ->
       (other ∈ toggle nodeId expanded <-> other ∈ expanded).
Proof.
  assert (H : toggle nodeId (toggle nodeId expanded) = expanded).
  { apply set_eq. intros x. rewrite !toggle_flips.
    destruct (decide (x = nodeId)), (decide (x ∈ expanded)); tauto. }
  split; [exact H|]. split; [|split].
  - unfold Horizontal.toggleNodeExpansion. simpl. now rewrite H.
  - exact H.
  - intros other Hne. rewrite toggle_flips. tauto.
Qed.

Lemma toggle_twice_restores_witness :
  "n2" <> "n1"
  /\ ("n2" ∈ toggle "n1" ({["n2"]} : gset string) <-> "n2" ∈ ({["n2"]} : gset string)).
Proof.
  assert (H : "n2" <> "n1") by discriminate.
  split; [exact H|].
  exact (proj2 (proj2 (proj2 (toggle_twice_restores "n1" {["n2"]}))) "n2" H).
Defined.

(** X6: the order in which nodes are toggled does not matter. *)
Theorem toggles_commute (a b : string) (expanded : gset string) :
  toggle a (toggle b expanded) = toggle b (toggle a expanded).
Proof.
  apply set_eq. intros x. rewrite !toggle_flips.
  destruct (decide (x = a)), (decide (x = b)), (decide (x ∈ expanded)); tauto.
Qed.

(** ** Pan and zoom *)

Lemma reachable_scale_positive v : Branched.reachable v -> (0 < Branched.scale v)%Q.
Proof. intros H. apply branched_scale_bounds in H. destruct H as [H _]. lra. Qed.

(** X7: a drag is anchored at the press: after pressing at [down] and
    moving to [move] the view is translated by the pointer displacement,
    whatever moves came in between, and the scale is untouched; without a
    press a move does nothing. *)
Theorem drag_is_anchored (v : Branched.ViewState) (down move between : Branched.MouseEvent) :
  let dragged := dragTo v down move in
  Branched.scale dragged = Branched.scale v
  /\ (Branched.translateX dragged
        == Branched.translateX v + (Branched.clientX move - Branched.clientX down))%Q
  /\ (Branched.translateY dragged
        == Branched.translateY v + (Branched.clientY move - Branched.clientY down))%Q
  /\ (let '(isDragging, dragStart) := Branched.handleMouseDown v down in
      Branched.handleMouseMove isDragging dragStart move
        (Branched.handleMouseMove isDragging dragStart between v) = dragged)
  /\ (forall dragStart, Branched.handleMouseMove false dragStart move v = v).
Proof.
  cbv zeta. unfold dragTo. simpl.
  split; [reflexivity|]. split; [ring|]. split; [ring|]. split; reflexivity.
Qed.

(** X8: on a reachable view, zoom-in never lowers the scale and zoom-out
    never raises it. *)
Theorem zoom_buttons_monotone (v : Branched.ViewState) :
  Branched.reachable v ->
  (Branched.scale v <= Branched.scale (Branched.zoomIn v))%Q
  /\ (Branched.scale (Branched.zoomOut v) <= Branched.scale v)%Q.
Proof.
  intros H. apply branched_scale_bounds in H. destruct H as [Hlo Hhi].
  simpl. unfold Math_min, Math_max. split.
  - apply Q.min_glb; lra.
  - apply Q.max_lub; lra.
Qed.

Lemma zoom_buttons_monotone_witness :
  Branched.reachable (Branched.zoomIn Branched.initialView)
  /\ (Branched.scale (Branched.zoomIn Branched.initialView)
      <= Branched.scale (Branched.zoomIn (Branched.zoomIn Branched.initialView)))%Q
  /\ (Branched.scale (Branched.zoomOut (Branched.zoomIn Branched.initialView))
      <= Branched.scale (Branched.zoomIn Branched.initialView))%Q.
Proof.
  assert (H : Branched.reachable (Branched.zoomIn Branched.initialView))
    by apply Branched.reach_zoomIn, Branched.reach_initial.
  split; [exact H|]. exact (zoom_buttons_monotone _ H).
Defined.



(** ** Canvas size *)

Lemma num_nonneg n : (0 <= num n)%Q.
Proof. unfold num, Qle. simpl. lia. Qed.

Lemma num_inj i j : (num i == num j)%Q -> i = j.
Proof. unfold num, Qeq. simpl. lia. Qed.

(** X10: whatever the size of the container, the lane canvas is at least
    1200 by 800, and every node of the layout is then drawn at a point with
    x at least 100 and y at least 200. *)
Theorem nodes_stay_on_canvas (rect : Branched.Rect) (prev : Branched.Dimensions)
    (nodes : list AgentNode) (p : Branched.NodePosition) :
  let dimensions := Branched.updateDimensions (Some rect) prev in
  In p (Branched.calculateNodePositions dimensions nodes) ->
  (1200 <= Branched.width dimensions)%Q /\ (800 <= Branched.height dimensions)%Q
  /\ (100 <= Branched.x p)%Q /\ (200 <= Branched.y p)%Q.
Proof.
  cbv zeta. rewrite calculateNodePositions_layout. intros Hp.
  apply in_layoutWith in Hp. destruct Hp as (l & a & j & _ & _ & _ & ->).
  assert (Hh : (400 * 2 <= Branched.height (Branched.updateDimensions (Some rect) prev))%Q)
    by apply Q.le_max_l.
  split; [apply Q.le_max_l|]. split; [exact Hh|].
  pose proof (num_nonneg j).
  pose proof (num_nonneg (currentLevelOf nodes + j)).
  pose proof (num_nonneg (validationLevelOf nodes)).
  pose proof (num_nonneg (validationLevelOf nodes + 1)).
  destruct l; unfold place; cbn [Branched.x Branched.y];
    unfold Branched.levelSpacing, Branched.branchSpacing;
    apply (Qle_shift_div_l 400 _ 2) in Hh; try reflexivity;
    set (centre := (Branched.height (Branched.updateDimensions (Some rect) prev) / 2)%Q) in *;
    clearbody centre; split; lra.
Qed.

Lemma nodes_stay_on_canvas_witness :
  let rect := {| Branched.rect_width := 640; Branched.rect_height := 480 |} in
  let dimensions := Branched.updateDimensions (Some rect) Branched.initialDimensions in
  let p := place dimensions 1 3 NewsLane newsSentiment 0 in
  In p (Branched.calculateNodePositions dimensions fourNodes)
  /\ (1200 <= Branched.width dimensions)%Q /\ (800 <= Branched.height dimensions)%Q
  /\ (100 <= Branched.x p)%Q /\ (200 <= Branched.y p)%Q.
Proof.
  cbv zeta.
  assert (H : In (place (Branched.updateDimensions
                           (Some {| Branched.rect_width := 640; Branched.rect_height := 480 |})
                           Branched.initialDimensions) 1 3 NewsLane newsSentiment 0)
                 (Branched.calculateNodePositions
                    (Branched.updateDimensions
                       (Some {| Branched.rect_width := 640; Branched.rect_height := 480 |})
                       Branched.initialDimensions) fourNodes))
    by (vm_compute; tauto).
  split; [exact H|].
  exact (nodes_stay_on_canvas _ Branched.initialDimensions fourNodes _ H).
Defined.

(** ** The lane layout as a whole *)

Lemma map_node_mapi dimensions cl vl l (xs : list AgentNode) :
  forall i, map Branched.node (mapi_from (place dimensions cl vl l) i xs) = xs.
Proof.
  induction xs as [|a xs IH]; intros i; simpl; [reflexivity|].
  now rewrite node_place, IH.
Qed.

Lemma filter_disjoint_perm {A : Type} (f g : A -> bool) (l : list A) :
  (forall a, f a = true -> g a = false) ->
  Permutation (List.filter f l ++ List.filter g l)
              (List.filter (fun a => f a || g a) l).
Proof.
  intros Hd. induction l as [|a l IH]; simpl; [constructor|].
  destruct (f a) eqn:Ef; simpl.
  - rewrite (Hd a Ef). now constructor.
  - destruct (g a); simpl; [|exact IH].
    etransitivity; [symmetry; apply Permutation_middle|]. now constructor.
Qed.

Lemma lanes_permutation (nodes : list AgentNode) (ls : list Lane) :
  NoDup ls ->
  Permutation (concat (map (fun l => List.filter (in_lane l) nodes) ls))
              (List.filter (fun n => existsb (fun l => in_lane l n) ls) nodes).
Proof.
  induction 1 as [|l ls Hl _ IH]; simpl.
  - induction nodes; simpl; auto.
  - etransitivity; [apply Permutation_app_head, IH|].
    apply filter_disjoint_perm. intros a Ha.
    apply in_lane_lane_of in Ha.
    destruct (existsb (fun l0 => in_lane l0 a) ls) eqn:E; [|reflexivity].
    apply existsb_exists in E. destruct E as (l' & Hin & Hl').
    apply in_lane_lane_of in Hl'. exfalso. apply Hl.
    apply list_elem_of_In. congruence.
Qed.

Lemma lanes_NoDup : NoDup lanes.
Proof.
  unfold lanes. repeat constructor; rewrite ?list_elem_of_In; simpl;
    intuition discriminate.
Qed.

(** X11: the layout holds one entry for every node that matches a rule and
    none for the others, grouped by lane in the fixed lane order and, within
    a lane, in arrival order; it is empty exactly when no node matches. *)
Theorem layout_entries dimensions (nodes : list AgentNode) :
  let positions := Branched.calculateNodePositions dimensions nodes in
  map Branched.node positions
  = concat (map (fun l => lane_nodes l (Branched.groups nodes)) lanes)
  /\ Permutation (map Branched.node positions) (List.filter positioned nodes)
  /\ (positions = [] <-> List.filter positioned nodes = []).
Proof.
  cbv zeta.
  assert (E : map Branched.node (Branched.calculateNodePositions dimensions nodes)
              = concat (map (fun l => List.filter (in_lane l) nodes) lanes)).
  { rewrite calculateNodePositions_layout. unfold layoutWith.
    rewrite concat_map, map_map. f_equal. apply map_ext. intros l.
    apply map_node_mapi. }
  split; [|split].
  - rewrite E. f_equal. apply map_ext. intros l. now rewrite groups_lane.
  - rewrite E. etransitivity; [apply lanes_permutation, lanes_NoDup|].
    erewrite List.filter_ext; [reflexivity|]. intros a.
    unfold positioned, in_lane. now destruct (lane_of a) as [[]|].
  - pose proof (layout_length dimensions nodes) as Hlen.
    split; intros H.
    + rewrite H in Hlen. simpl in Hlen. symmetry in Hlen.
      now apply length_zero_iff_nil in Hlen.
    + rewrite H in Hlen. simpl in Hlen. now apply length_zero_iff_nil in Hlen.
Qed.

Lemma map_level_mapi dimensions cl vl l (xs : list AgentNode) :
  forall i,
    map Branched.level (mapi_from (place dimensions cl vl l) i xs)
    = match l with
      | MainLane => seq i (length xs)
      | NewsLane | FinancialLane | MarketLane => seq (cl + i) (length xs)
      | ValidationLane => repeat vl (length xs)
      | FinalLane => repeat (vl + 1) (length xs)
      end.
Proof.
  induction xs as [|a xs IH]; intros i; simpl; [now destruct l|].
  rewrite IH, level_place. destruct l; simpl; try reflexivity;
    now rewrite Nat.add_succ_r.
Qed.

(** X12: the levels of the layout, entry by entry: the main flow occupies
    levels 0, 1, 2, ...; each thematic lane starts at the number of
    main-flow nodes and advances by one per node; all validation nodes share
    one level and all final nodes the next, which are at least 2 and 3. *)
Theorem layout_levels dimensions (nodes : list AgentNode) :
  let cl := laneSize MainLane nodes in
  let vl := cl + Nat.max 2 (Nat.max (laneSize NewsLane nodes)
                              (Nat.max (laneSize FinancialLane nodes)
                                       (laneSize MarketLane nodes))) in
  map Branched.level (Branched.calculateNodePositions dimensions nodes)
  = seq 0 cl
    ++ seq cl (laneSize NewsLane nodes)
    ++ seq cl (laneSize FinancialLane nodes)
    ++ seq cl (laneSize MarketLane nodes)
    ++ repeat vl (laneSize ValidationLane nodes)
    ++ repeat (vl + 1) (laneSize FinalLane nodes)
  /\ 2 <= vl.
Proof.
  cbv zeta. split; [|lia].
  rewrite calculateNodePositions_layout. unfold layoutWith, laneSize.
  rewrite concat_map, map_map. simpl map.
  rewrite !map_level_mapi, <- !groups_lane. simpl concat.
  rewrite app_nil_r, !Nat.add_0_r. reflexivity.
Qed.

(** X13: in every entry of the layout the horizontal position is fixed by
    the level, [x = 100 + level * 320], and only thematic entries carry a
    non-zero branch index. *)
Theorem x_follows_level dimensions (nodes : list AgentNode) (p : Branched.NodePosition) :
  In p (Branched.calculateNodePositions dimensions nodes) ->
  Branched.x p = (100 + num (Branched.level p) * Branched.levelSpacing)%Q
  /\ (Branched.branch p <> 0 <->
      In (Branched.node p) (Branched.newsBranch (Branched.groups nodes))
      \/ In (Branched.node p) (Branched.financialBranch (Branched.groups nodes))
      \/ In (Branched.node p) (Branched.marketBranch (Branched.groups nodes))).
Proof.
  rewrite calculateNodePositions_layout. intros Hp.
  apply in_layoutWith in Hp. destruct Hp as (l & a & j & Hl & Ha & _ & ->).
  split; [now destruct l|]. rewrite node_place.
  assert (Hin : In a (lane_nodes l (Branched.groups nodes))).
  { rewrite groups_lane. apply filter_In. split; [exact Ha|].
    now apply in_lane_lane_of. }
  split.
  - intros Hb. destruct l; simpl in *; try tauto; contradiction.
  - intros [H | [H | H]];
      [ apply (in_group_lane NewsLane) in H
      | apply (in_group_lane FinancialLane) in H
      | apply (in_group_lane MarketLane) in H ];
      rewrite Hl in H; injection H as ->; simpl; lia.
Qed.

Lemma x_follows_level_witness :
  let p := place Branched.initialDimensions 1 3 NewsLane newsSentiment 0 in
  In p (Branched.calculateNodePositions Branched.initialDimensions fourNodes)
  /\ Branched.x p = (100 + num (Branched.level p) * Branched.levelSpacing)%Q
  /\ (Branched.branch p <> 0 <->
      In (Branched.node p) (Branched.newsBranch (Branched.groups fourNodes))
      \/ In (Branched.node p) (Branched.financialBranch (Branched.groups fourNodes))
      \/ In (Branched.node p) (Branched.marketBranch (Branched.groups fourNodes))).
Proof.
  cbv zeta.
  assert (H : In (place Branched.initialDimensions 1 3 NewsLane newsSentiment 0)
                 (Branched.calculateNodePositions Branched.initialDimensions fourNodes))
    by (vm_compute; tauto).
  split; [exact H|]. exact (x_follows_level _ fourNodes _ H).
Defined.

(** *** No two entries on the same spot, except in the final lane *)

Lemma FOP_app {A : Type} (R : A -> A -> Prop) (l1 l2 : list A) :
  ForallOrdPairs R l1 -> ForallOrdPairs R l2 ->
  (forall a b, In a l1 -> In b l2 -> R a b) ->
  ForallOrdPairs R (l1 ++ l2).
Proof.
  intros H1 H2 Hx. induction H1 as [|a l1 Ha _ IH]; simpl; [exact H2|].
  constructor.
  - apply List.Forall_forall. intros b Hb. apply in_app_or in Hb.
    destruct Hb as [Hb | Hb].
    + rewrite List.Forall_forall in Ha. now apply Ha.
    + apply Hx; [now left | exact Hb].
  - apply IH. intros a' b Ha' Hb. apply Hx; [now right | exact Hb].
Qed.

Lemma FOP_mapi {A B : Type} (R : B -> B -> Prop) (g : A -> nat -> B) (xs : list A) :
  forall i0,
    (forall a b i j, In a xs -> In b xs -> i0 <= i -> i < j -> j < i0 + length xs ->
                     R (g a i) (g b j)) ->
    ForallOrdPairs R (mapi_from g i0 xs).
Proof.
  induction xs as [|a xs IH]; intros i0 H; simpl; constructor.
  - apply List.Forall_forall. intros q Hq. apply in_mapi_from in Hq.
    destruct Hq as (b & k & Hb & Hk & ->).
    apply H; simpl; auto; lia.
  - apply IH. intros a' b i j Ha' Hb Hi Hij Hj.
    apply H; simpl; auto; lia.
Qed.

Lemma laneSize_filter l nodes : length (List.filter (in_lane l) nodes) = laneSize l nodes.
Proof. unfold laneSize. now rewrite groups_lane. Qed.

Lemma place_apart dimensions (nodes : list AgentNode) (l l' : Lane) (a b : AgentNode) (i j : nat) :
  i < laneSize l nodes -> j < laneSize l' nodes ->
  l <> l' \/ i <> j ->
  let p := place dimensions (currentLevelOf nodes) (validationLevelOf nodes) l a i in
  let q := place dimensions (currentLevelOf nodes) (validationLevelOf nodes) l' b j in
  apart p q \/ (l = FinalLane /\ l' = FinalLane).
Proof.
  intros Hi Hj Hne. cbv zeta.
  assert (Hmain : laneSize MainLane nodes = currentLevelOf nodes) by reflexivity.
  assert (Hth : forall t, thematic t = true -> laneSize t nodes <= maxLaneSize nodes).
  { intros t Ht. rewrite <- laneSize_filter. now apply lane_size_le. }
  pose proof (Hth NewsLane eq_refl). pose proof (Hth FinancialLane eq_refl).
  pose proof (Hth MarketLane eq_refl). clear Hth.
  unfold apart. rewrite !level_place. unfold validationLevelOf.
  destruct (Nat.eq_dec i j) as [->|Hij].
  - assert (Hl : l <> l') by (destruct Hne; [assumption | contradiction]).
    destruct l, l'; try contradiction; try (right; split; reflexivity);
      try (left; left; lia);
      left; right; unfold place; cbn [Branched.y];
      set (centre := (Branched.height dimensions / 2)%Q); clearbody centre;
      intros E; lra.
  - destruct l, l'; try (right; split; reflexivity); try (left; left; lia).
    left; right. unfold place; cbn [Branched.y]. unfold Branched.branchSpacing.
    set (centre := (Branched.height dimensions / 2)%Q). clearbody centre.
    intros E. apply Hij, num_inj. lra.
Qed.

Lemma layout_FOP dimensions (nodes : list AgentNode) (ls : list Lane) :
  NoDup ls ->
  ForallOrdPairs (fun p q => apart p q \/ (inFinalLane p /\ inFinalLane q))
    (concat (map (fun l => mapi_from (place dimensions (currentLevelOf nodes)
                                         (validationLevelOf nodes) l) 0
                                     (List.filter (in_lane l) nodes)) ls)).
Proof.
  assert (Hfinal : forall l l' a b i j,
             lane_of a = Some l -> lane_of b = Some l' ->
             l = FinalLane /\ l' = FinalLane ->
             inFinalLane (place dimensions (currentLevelOf nodes) (validationLevelOf nodes) l a i)
             /\ inFinalLane (place dimensions (currentLevelOf nodes) (validationLevelOf nodes) l' b j)).
  { intros l l' a b i j Ha Hb [-> ->]. unfold inFinalLane. now rewrite !node_place. }
  induction 1 as [|l ls Hl Hnd IH]; simpl; [constructor|].
  apply FOP_app; [ | exact IH | ].
  - apply FOP_mapi. intros a b i j Ha Hb _ Hij Hj. simpl in Hj.
    apply filter_In in Ha. apply filter_In in Hb.
    destruct Ha as [_ Ha]. destruct Hb as [_ Hb].
    apply in_lane_lane_of in Ha. apply in_lane_lane_of in Hb.
    rewrite laneSize_filter in Hj.
    destruct (place_apart dimensions nodes l l a b i j) as [H | H];
      [lia | lia | right; lia | now left | right; now apply (Hfinal l l)].
  - intros p q Hp Hq. apply in_mapi_from in Hp.
    destruct Hp as (a & i & Ha & Hi & ->).
    apply in_concat in Hq. destruct Hq as (seg & Hseg & Hq).
    apply in_map_iff in Hseg. destruct Hseg as (l' & <- & Hl').
    apply in_mapi_from in Hq. destruct Hq as (b & j & Hb & Hj & ->).
    apply filter_In in Ha. apply filter_In in Hb.
    destruct Ha as [_ Ha]. destruct Hb as [_ Hb].
    apply in_lane_lane_of in Ha. apply in_lane_lane_of in Hb.
    rewrite laneSize_filter in Hi, Hj. simpl.
    assert (Hne : l <> l').
    { intros ->. apply Hl. now apply list_elem_of_In. }
    destruct (place_apart dimensions nodes l l' a b i j) as [H | H];
      [exact Hi | exact Hj | now left | now left | right; now apply (Hfinal l l')].
Qed.

(** X14: overlap is avoided by construction everywhere but in the final
    lane: any two entries of the layout lie at different levels or at
    different heights unless both belong to the final lane, and all
    final-lane entries are drawn on one and the same point. *)
Theorem entries_do_not_overlap dimensions (nodes : list AgentNode) :
  ForallOrdPairs (fun p q => apart p q \/ (inFinalLane p /\ inFinalLane q))
                 (Branched.calculateNodePositions dimensions nodes)
  /\ forall p q,
       In p (Branched.calculateNodePositions dimensions nodes) ->
       In q (Branched.calculateNodePositions dimensions nodes) ->
       inFinalLane p -> inFinalLane q -> pointOf p = pointOf q.
Proof.
  rewrite calculateNodePositions_layout. split.
  - apply layout_FOP, lanes_NoDup.
  - intros p q Hp Hq Fp Fq.
    apply in_layoutWith in Hp. destruct Hp as (l & a & i & Hl & _ & _ & ->).
    apply in_layoutWith in Hq. destruct Hq as (l' & b & j & Hl' & _ & _ & ->).
    unfold inFinalLane in *. rewrite node_place in *.
    assert (l = FinalLane) by congruence. assert (l' = FinalLane) by congruence.
    subst. reflexivity.
Qed.

Lemma entries_do_not_overlap_witness :
  let positions :=
    Branched.calculateNodePositions Branched.initialDimensions
      [sample "f1" inference "Master Inference" None [];
       sample "f2" inference "Final Analysis" None []] in
  let p := place Branched.initialDimensions 0 2 FinalLane
             (sample "f1" inference "Master Inference" None []) 0 in
  let q := place Branched.initialDimensions 0 2 FinalLane
             (sample "f2" inference "Final Analysis" None []) 1 in
  In p positions /\ In q positions /\ inFinalLane p /\ inFinalLane q
  /\ pointOf p = pointOf q.
Proof.
  cbv zeta.
  assert (Hp : In (place Branched.initialDimensions 0 2 FinalLane
                     (sample "f1" inference "Master Inference" None []) 0)
                  (Branched.calculateNodePositions Branched.initialDimensions
                     [sample "f1" inference "Master Inference" None [];
                      sample "f2" inference "Final Analysis" None []]))
    by (vm_compute; tauto).
  assert (Hq : In (place Branched.initialDimensions 0 2 FinalLane
                     (sample "f2" inference "Final Analysis" None []) 1)
                  (Branched.calculateNodePositions Branched.initialDimensions
                     [sample "f1" inference "Master Inference" None [];
                      sample "f2" inference "Final Analysis" None []]))
    by (vm_compute; tauto).
  assert (Fp : inFinalLane (place Branched.initialDimensions 0 2 FinalLane
                              (sample "f1" inference "Master Inference" None []) 0))
    by reflexivity.
  assert (Fq : inFinalLane (place Branched.initialDimensions 0 2 FinalLane
                              (sample "f2" inference "Final Analysis" None []) 1))
    by reflexivity.
  split; [exact Hp|]. split; [exact Hq|]. split; [exact Fp|]. split; [exact Fq|].
  exact (proj2 (entries_do_not_overlap Branched.initialDimensions _) _ _ Hp Hq Fp Fq).
Defined.

(** ** Every resolvable link gets its connection *)

Lemma find_first_exists {A : Type} (f : A -> bool) (l : list A) :
  (exists a, In a l /\ f a = true) -> exists a', find_first f l = Some a'.
Proof.
  intros (a & Ha & Hf). induction l as [|b l IH]; [contradiction|]. simpl.
  destruct (f b) eqn:E; [eauto|].
  destruct Ha as [-> | Ha]; [congruence | now apply IH].
Qed.

Lemma forEach_from_keeps {A C : Type} (f : list C -> A -> nat -> list C) (c : C) (l : list A) :
  (forall s x i, In c s -> In c (f s x i)) ->
  forall i s, In c s -> In c (forEach_from f i l s).
Proof.
  intros Hf. induction l as [|x l IH]; intros i s Hs; simpl; auto.
Qed.

Lemma forEach_from_reaches {A C : Type} (f : list C -> A -> nat -> list C) (c : C)
    (l : list A) (a : A) :
  (forall s x i, In c s -> In c (f s x i)) ->
  In a l -> (forall s i, In c (f s a i)) ->
  forall i s, In c (forEach_from f i l s).
Proof.
  intros Hf Ha Hc. induction l as [|x l IH]; intros i s; [contradiction|]. simpl.
  destruct Ha as [-> | Ha].
  - apply forEach_from_keeps; auto.
  - now apply IH.
Qed.

(** One round of the connection loop never drops a connection. *)
Lemma connection_round_keeps (nodePositions : list Branched.NodePosition)
    (c : Branched.Connection) (conns : list Branched.Connection)
    (nodePos : Branched.NodePosition) :
  In c conns ->
  In c (let connections :=
          if truthy_str (parent_id (Branched.node nodePos)) then
            match find_first (Branched.id_is (parent_id (Branched.node nodePos))) nodePositions with
            | Some parentPos =>
                conns ++ [ Branched.mkConn
                             (Branched.mkPoint (Branched.x parentPos) (Branched.y parentPos))
                             (Branched.mkPoint (Branched.x nodePos) (Branched.y nodePos))
                             "parent" ]
            | None => conns
            end
          else conns in
        if Nat.ltb 0 (length (children_ids (Branched.node nodePos))) then
          forEach (fun connections childId _ =>
            match find_first (Branched.id_is (Some childId)) nodePositions with
            | Some childPos =>
                connections ++ [ Branched.mkConn
                                   (Branched.mkPoint (Branched.x nodePos) (Branched.y nodePos))
                                   (Branched.mkPoint (Branched.x childPos) (Branched.y childPos))
                                   "validation" ]
            | None => connections
            end)
            (children_ids (Branched.node nodePos)) connections
        else connections).
Proof.
  intros Hc. cbv zeta.
  assert (H1 : In c (if truthy_str (parent_id (Branched.node nodePos)) then
            match find_first (Branched.id_is (parent_id (Branched.node nodePos))) nodePositions with
            | Some parentPos =>
                conns ++ [ Branched.mkConn
                             (Branched.mkPoint (Branched.x parentPos) (Branched.y parentPos))
                             (Branched.mkPoint (Branched.x nodePos) (Branched.y nodePos))
                             "parent" ]
            | None => conns
            end
          else conns)).
  { destruct (truthy_str _); [|exact Hc].
    destruct (find_first _ _); [|exact Hc]. apply in_or_app. now left. }
  destruct (Nat.ltb _ _); [|exact H1].
  unfold forEach. apply forEach_from_keeps; [|exact H1].
  intros s childId _ Hs.
  destruct (find_first (Branched.id_is (Some childId)) nodePositions); [|exact Hs].
  apply in_or_app. now left.
Qed.

(** X15: whenever a positioned node names, by a non-empty [parent_id], the
    id of some positioned node, a "parent" connection is produced, from the
    first layout entry with that id to the node. *)
Theorem parent_connection_is_drawn (nodePositions : list Branched.NodePosition)
    (q : Branched.NodePosition) (parentId : string) :
  In q nodePositions ->
  parent_id (Branched.node q) = Some parentId -> parentId <> "" ->
  (exists p, In p nodePositions /\ id (Branched.node p) = parentId) ->
  exists p,
    find_first (Branched.id_is (Some parentId)) nodePositions = Some p
    /\ id (Branched.node p) = parentId
    /\ In (Branched.mkConn (pointOf p) (pointOf q) "parent")
          (Branched.getConnections nodePositions).
Proof.
  intros Hq Hpar Hne (p0 & Hp0 & Hid0).
  destruct (find_first_exists (Branched.id_is (Some parentId)) nodePositions) as [p Hp].
  { exists p0. split; [exact Hp0|]. unfold Branched.id_is. now apply String.eqb_eq. }
  exists p. split; [exact Hp|].
  pose proof (find_first_some _ _ _ Hp) as [_ Hid]. apply id_is_some in Hid.
  split; [exact Hid|].
  unfold Branched.getConnections, forEach.
  apply (forEach_from_reaches _ _ _ q); [ | exact Hq | ].
  - intros s x _ Hs. now apply connection_round_keeps.
  - intros s _. rewrite Hpar.
    assert (Ht : truthy_str (Some parentId) = true).
    { simpl. now destruct (String.eqb_spec parentId ""). }
    rewrite Ht, Hp.
    assert (H1 : In (Branched.mkConn (pointOf p) (pointOf q) "parent")
                    (s ++ [Branched.mkConn
                             (Branched.mkPoint (Branched.x p) (Branched.y p))
                             (Branched.mkPoint (Branched.x q) (Branched.y q)) "parent"])).
    { apply in_or_app. right. now left. }
    destruct (Nat.ltb _ _); [|exact H1].
    unfold forEach. apply forEach_from_keeps; [|exact H1].
    intros s' childId _ Hs'.
    destruct (find_first (Branched.id_is (Some childId)) nodePositions); [|exact Hs'].
    apply in_or_app. now left.
Qed.

Lemma parent_connection_is_drawn_witness :
  let nodePositions := Branched.calculateNodePositions Branched.initialDimensions fourNodes in
  let q := place Branched.initialDimensions 1 3 ValidationLane crossCheck 0 in
  In q nodePositions
  /\ parent_id (Branched.node q) = Some "n2" /\ "n2" <> ""
  /\ (exists p, In p nodePositions /\ id (Branched.node p) = "n2")
  /\ exists p,
       find_first (Branched.id_is (Some "n2")) nodePositions = Some p
       /\ id (Branched.node p) = "n2"
       /\ In (Branched.mkConn (pointOf p) (pointOf q) "parent")
             (Branched.getConnections nodePositions).
Proof.
  cbv zeta.
  assert (Hq : In (place Branched.initialDimensions 1 3 ValidationLane crossCheck 0)
                  (Branched.calculateNodePositions Branched.initialDimensions fourNodes))
    by (vm_compute; tauto).
  assert (Hpar : parent_id (Branched.node
                   (place Branched.initialDimensions 1 3 ValidationLane crossCheck 0))
                 = Some "n2") by reflexivity.
  assert (Hne : "n2" <> "") by discriminate.
  assert (Hex : exists p,
             In p (Branched.calculateNodePositions Branched.initialDimensions fourNodes)
             /\ id (Branched.node p) = "n2").
  { exists (place Branched.initialDimensions 1 3 NewsLane newsSentiment 0).
    split; [vm_compute; tauto | reflexivity]. }
  split; [exact Hq|]. split; [exact Hpar|]. split; [exact Hne|]. split; [exact Hex|].
  exact (parent_connection_is_drawn _ _ "n2" Hq Hpar Hne Hex).
Defined.

(** X16: whenever a positioned node lists, in [children_ids], the id of
    some positioned node, a "validation" connection is produced, from the
    node to the first layout entry with that id -- in addition to the
    "parent" connection the child may already have. *)
Theorem child_connection_is_drawn (nodePositions : list Branched.NodePosition)
    (p : Branched.NodePosition) (childId : string) :
  In p nodePositions ->
  In childId (children_ids (Branched.node p)) ->
  (exists q, In q nodePositions /\ id (Branched.node q) = childId) ->
  exists q,
    find_first (Branched.id_is (Some childId)) nodePositions = Some q
    /\ id (Branched.node q) = childId
    /\ In (Branched.mkConn (pointOf p) (pointOf q) "validation")
          (Branched.getConnections nodePositions).
Proof.
  intros Hp Hchild (q0 & Hq0 & Hid0).
  destruct (find_first_exists (Branched.id_is (Some childId)) nodePositions) as [q Hq].
  { exists q0. split; [exact Hq0|]. unfold Branched.id_is. now apply String.eqb_eq. }
  exists q. split; [exact Hq|].
  pose proof (find_first_some _ _ _ Hq) as [_ Hid]. apply id_is_some in Hid.
  split; [exact Hid|].
  unfold Branched.getConnections, forEach.
  apply (forEach_from_reaches _ _ _ p); [ | exact Hp | ].
  - intros s x _ Hs. now apply connection_round_keeps.
  - intros s _.
    assert (Hlen : Nat.ltb 0 (length (children_ids (Branched.node p))) = true).
    { apply Nat.ltb_lt. destruct (children_ids (Branched.node p)); [contradiction|].
      simpl. lia. }
    rewrite Hlen.
    apply (forEach_from_reaches _ _ _ childId); [ | exact Hchild | ].
    + intros s' x _ Hs'.
      destruct (find_first (Branched.id_is (Some x)) nodePositions); [|exact Hs'].
      apply in_or_app. now left.
    + intros s' _. rewrite Hq. apply in_or_app. right. now left.
Qed.

Lemma child_connection_is_drawn_witness :
  let nodePositions := Branched.calculateNodePositions Branched.initialDimensions fourNodes in
  let p := place Branched.initialDimensions 1 3 MainLane priceData 0 in
  In p nodePositions
  /\ In "n3" (children_ids (Branched.node p))
  /\ (exists q, In q nodePositions /\ id (Branched.node q) = "n3")
  /\ exists q,
       find_first (Branched.id_is (Some "n3")) nodePositions = Some q
       /\ id (Branched.node q) = "n3"
       /\ In (Branched.mkConn (pointOf p) (pointOf q) "validation")
             (Branched.getConnections nodePositions).
Proof.
  cbv zeta.
  assert (Hp : In (place Branched.initialDimensions 1 3 MainLane priceData 0)
                  (Branched.calculateNodePositions Branched.initialDimensions fourNodes))
    by (vm_compute; tauto).
  assert (Hc : In "n3" (children_ids (Branched.node
                          (place Branched.initialDimensions 1 3 MainLane priceData 0))))
    by (right; left; reflexivity).
  assert (Hex : exists q,
             In q (Branched.calculateNodePositions Branched.initialDimensions fourNodes)
             /\ id (Branched.node q) = "n3").
  { exists (place Branched.initialDimensions 1 3 NewsLane headlines 1).
    split; [vm_compute; tauto | reflexivity]. }
  split; [exact Hp|]. split; [exact Hc|]. split; [exact Hex|].
  exact (child_connection_is_drawn _ _ "n3" Hp Hc Hex).
Defined.

(** ** The grid component *)

Lemma addAction_run (agentActions : list AgentAction.t) :
  forall i b,
    RealTime.nodeIndex (forEach_from RealTime.addAction i agentActions b)
    = RealTime.nodeIndex b + length agentActions
    /\ RealTime.newEdges (forEach_from RealTime.addAction i agentActions b)
       = RealTime.newEdges b
    /\ map VisualNode.id (RealTime.newVisualNodes (forEach_from RealTime.addAction i agentActions b))
       = map VisualNode.id (RealTime.newVisualNodes b)
         ++ map (fun j => "action_" +:+ pretty j) (seq i (length agentActions))
    /\ map corner (RealTime.newVisualNodes (forEach_from RealTime.addAction i agentActions b))
       = map corner (RealTime.newVisualNodes b)
         ++ map actionCorner (seq i (length agentActions)).
Proof.
  induction agentActions as [|a l IH]; intros i b; simpl.
  - rewrite !app_nil_r. repeat split; lia.
  - destruct (IH (S i) (RealTime.addAction b a i)) as (-> & -> & -> & ->).
    simpl. rewrite !map_app, <- !app_assoc. simpl. repeat split; lia.
Qed.

Lemma addNode_run (expandedNodes : gset string) (nodes : list AgentNode) :
  forall i b,
    map VisualNode.id (RealTime.newVisualNodes
                         (forEach_from (RealTime.addNode expandedNodes) i nodes b))
    = map VisualNode.id (RealTime.newVisualNodes b) ++ map id nodes
    /\ map corner (RealTime.newVisualNodes
                     (forEach_from (RealTime.addNode expandedNodes) i nodes b))
       = map corner (RealTime.newVisualNodes b)
         ++ map nodeCorner (seq (RealTime.nodeIndex b) (length nodes)).
Proof.
  induction nodes as [|a l IH]; intros i b; simpl.
  - now rewrite !app_nil_r.
  - destruct (IH (S i) (RealTime.addNode expandedNodes b a i)) as (-> & ->).
    simpl. rewrite !map_app, <- !app_assoc. simpl.
    now replace (RealTime.nodeIndex b + 1) with (S (RealTime.nodeIndex b)) by lia.
Qed.

(** X17: the grid component gives every agent action and every node a
    visual node, whatever its label or type: the ids are [action_0],
    [action_1], ... followed by the node ids in arrival order. *)
Theorem grid_shows_every_node (nodes : list AgentNode) (agentActions : list AgentAction.t)
    (expandedNodes : gset string) :
  map VisualNode.id (fst (RealTime.rebuild nodes agentActions expandedNodes))
  = map (fun j => "action_" +:+ pretty j) (seq 0 (length agentActions)) ++ map id nodes
  /\ length (fst (RealTime.rebuild nodes agentActions expandedNodes))
     = length agentActions + length nodes.
Proof.
  assert (E : map VisualNode.id (fst (RealTime.rebuild nodes agentActions expandedNodes))
              = map (fun j => "action_" +:+ pretty j) (seq 0 (length agentActions))
                ++ map id nodes).
  { unfold RealTime.rebuild, forEach. simpl fst. rewrite addCrossEdges_nodes.
    destruct (addNode_run expandedNodes nodes 0
                (forEach_from RealTime.addAction 0 agentActions (RealTime.mkBuild [] [] 0)))
      as [-> _].
    destruct (addAction_run agentActions 0 (RealTime.mkBuild [] [] 0)) as (_ & _ & -> & _).
    reflexivity. }
  split; [exact E|].
  apply (f_equal (@length string)) in E.
  now rewrite length_map, length_app, !length_map, length_seq in E.
Qed.

Lemma FOP_map {A B : Type} (R : B -> B -> Prop) (f : A -> B) (l : list A) :
  ForallOrdPairs R (map f l) <-> ForallOrdPairs (fun a b => R (f a) (f b)) l.
Proof.
  induction l as [|a l IH]; simpl.
  - split; constructor.
  - split; intros H; inversion H; subst; constructor.
    + rewrite List.Forall_forall in *. intros b Hb. apply H2. now apply in_map.
    + now apply IH.
    + rewrite List.Forall_forall in *. intros b Hb. apply in_map_iff in Hb.
      destruct Hb as (x & <- & Hx). now apply H2.
    + now apply IH.
Qed.

Lemma FOP_seq (R : nat -> nat -> Prop) (n : nat) :
  forall i, (forall a b, i <= a -> a < b -> b < i + n -> R a b) ->
            ForallOrdPairs R (seq i n).
Proof.
  induction n as [|n IH]; intros i H; simpl; constructor.
  - apply List.Forall_forall. intros b Hb. apply in_seq in Hb. apply H; lia.
  - apply IH. intros a b Ha Hab Hb. apply H; lia.
Qed.

Lemma corner_facts (c1 c2 : Q) (a b : nat) :
  (c1 + num a * c2 == c1 + num b * c2)%Q -> ~ (c2 == 0)%Q -> a = b.
Proof.
  intros H Hc. apply num_inj.
  assert (E : (num a * c2 == num b * c2)%Q) by lra.
  apply Qmult_inj_r in E; assumption.
Qed.

Lemma actionCorner_inj i j : sameCorner (actionCorner i) (actionCorner j) -> i = j.
Proof.
  intros [Hx Hy]. unfold actionCorner in Hx, Hy. cbn [fst snd] in Hx, Hy.
  apply corner_facts in Hx; [|discriminate]. apply corner_facts in Hy; [|discriminate].
  pose proof (Nat.div_mod_eq i 6). pose proof (Nat.div_mod_eq j 6). lia.
Qed.

Lemma nodeCorner_inj i j : sameCorner (nodeCorner i) (nodeCorner j) -> i = j.
Proof.
  intros [Hx Hy]. unfold nodeCorner in Hx, Hy. cbn [fst snd] in Hx, Hy.
  apply corner_facts in Hx; [|discriminate]. apply corner_facts in Hy; [|discriminate].
  pose proof (Nat.div_mod_eq i 5). pose proof (Nat.div_mod_eq j 5). lia.
Qed.

Lemma num_Z n : num n = inject_Z (Z.of_nat n).
Proof. reflexivity. Qed.

Lemma action_node_corners i k : i < k -> ~ sameCorner (actionCorner i) (nodeCorner k).
Proof.
  intros Hik [Hx Hy]. unfold actionCorner, nodeCorner in Hx, Hy. cbn [fst snd] in Hx, Hy.
  pose proof (Nat.div_mod_eq i 6). pose proof (Nat.div_mod_eq k 5).
  pose proof (Nat.mod_upper_bound i 6). pose proof (Nat.mod_upper_bound k 5).
  remember (i mod 6) as a. remember (k mod 5) as b.
  remember (i / 6) as r. remember (k / 5) as r'.
  unfold Qeq, num in Hx, Hy. simpl in Hx, Hy. lia.
Qed.

(** X18: no two visual nodes of the grid component share their top-left
    corner, agent actions and investigation nodes alike. *)
Theorem grid_corners_distinct (nodes : list AgentNode) (agentActions : list AgentAction.t)
    (expandedNodes : gset string) :
  ForallOrdPairs (fun v w => ~ sameCorner (corner v) (corner w))
                 (fst (RealTime.rebuild nodes agentActions expandedNodes)).
Proof.
  apply (FOP_map (fun c d => ~ sameCorner c d) corner).
  unfold RealTime.rebuild, forEach. simpl fst. rewrite addCrossEdges_nodes.
  destruct (addNode_run expandedNodes nodes 0
              (forEach_from RealTime.addAction 0 agentActions (RealTime.mkBuild [] [] 0)))
    as [_ ->].
  destruct (addAction_run agentActions 0 (RealTime.mkBuild [] [] 0)) as (-> & _ & _ & ->).
  simpl. apply FOP_app.
  - apply FOP_map, FOP_seq. intros a b _ Hab _ H. apply actionCorner_inj in H. lia.
  - apply FOP_map, FOP_seq. intros a b _ Hab _ H. apply nodeCorner_inj in H. lia.
  - intros c d Hc Hd. apply in_map_iff in Hc. apply in_map_iff in Hd.
    destruct Hc as (i & <- & Hi). destruct Hd as (k & <- & Hk).
    apply in_seq in Hi. apply in_seq in Hk. apply action_node_corners. lia.
Qed.

(** *** Edges of the grid component *)

Lemma differs_true parentId o : RealTime.differs parentId o = true -> o <> Some parentId.
Proof.
  unfold RealTime.differs. destruct o as [s|]; [|discriminate].
  destruct (String.eqb_spec parentId s); [discriminate|]. congruence.
Qed.

(** X19: every edge the effect builds is backed by the node list: a normal
    edge runs from the non-empty [parent_id] of a node to that node; a
    cross-validation edge runs to a node from an id listed in its
    [data.parent_nodes] that is not its [parent_id], so it never doubles the
    structural edge; no other kind of edge is built. *)
Theorem grid_edges_justified (nodes : list AgentNode) (agentActions : list AgentAction.t)
    (expandedNodes : gset string) (e : Edge.t) :
  In e (snd (RealTime.rebuild nodes agentActions expandedNodes)) ->
  edgeJustified nodes e.
Proof.
  set (P := fun b : RealTime.Build =>
              forall e', In e' (RealTime.newEdges b) -> edgeJustified nodes e').
  enough (HP : P (forEach_from RealTime.addCrossEdges 0 nodes
                    (forEach_from (RealTime.addNode expandedNodes) 0 nodes
                       (forEach_from RealTime.addAction 0 agentActions
                          (RealTime.mkBuild [] [] 0)))))
    by (intros He; apply HP; exact He).
  apply (forEach_from_invariant P (fun n => In n nodes)); [ | apply List.Forall_forall; auto | ].
  - intros b node k Hnode Hb. unfold RealTime.addCrossEdges.
    destruct (get_field "parent_nodes" (data node)) as [[| | | |parent_nodes|]|] eqn:Eg;
      try exact Hb.
    apply (forEach_from_invariant P (fun s => In s parent_nodes));
      [ | apply List.Forall_forall; auto | exact Hb ].
    intros b' parentId _ Hin Hb'.
    destruct (RealTime.differs parentId (parent_id node)) eqn:Ed; [|exact Hb'].
    intros e' He. simpl in He. apply in_app_or in He.
    destruct He as [He | [<- | []]]; [now apply Hb'|].
    unfold edgeJustified. simpl. exists node, parent_nodes.
    repeat split; auto. now apply differs_true.
  - apply (forEach_from_invariant P (fun n => In n nodes)); [ | apply List.Forall_forall; auto | ].
    + intros b node k Hnode Hb e' He. unfold RealTime.addNode in He. simpl in He.
      destruct (parent_id node) as [parent|] eqn:Ep; [|now apply Hb].
      destruct (String.eqb_spec parent ""); simpl in He; [now apply Hb|].
      apply in_app_or in He. destruct He as [He | [<- | []]]; [now apply Hb|].
      unfold edgeJustified. simpl. exists node. repeat split; auto.
    + destruct (addAction_run agentActions 0 (RealTime.mkBuild [] [] 0)) as (_ & E & _).
      intros e' He. rewrite E in He. contradiction.
Qed.

Lemma grid_edges_justified_witness :
  let e := Edge.mk "edge_n1_n2" "n1" "n2" Edge.normal in
  In e (snd (RealTime.rebuild fourNodes [] ∅)) /\ edgeJustified fourNodes e.
Proof.
  cbv zeta.
  assert (H : In (Edge.mk "edge_n1_n2" "n1" "n2" Edge.normal)
                 (snd (RealTime.rebuild fourNodes [] ∅)))
    by (left; reflexivity).
  split; [exact H|]. exact (grid_edges_justified fourNodes [] ∅ _ H).
Defined.

Lemma has_id_found (s : string) (visualNodes : list VisualNode.t) :
  (exists n, In n visualNodes /\ VisualNode.id n = s)
  <-> exists n, find_first (RealTime.has_id s) visualNodes = Some n.
Proof.
  split.
  - intros (n & Hn & Hid). apply find_first_exists. exists n. split; [exact Hn|].
    unfold RealTime.has_id. now apply String.eqb_eq.
  - intros (n & Hn). apply find_first_some in Hn. destruct Hn as [Hn Hid].
    exists n. split; [exact Hn|]. now apply String.eqb_eq.
Qed.

(** X20: an edge of the grid component is drawn exactly when both its
    source id and its target id belong to visual nodes; the line then joins
    the bottom centre of the first visual node with the source id to the
    top centre of the first one with the target id. *)
Theorem edge_drawn_iff_both_ends (visualNodes : list VisualNode.t) (edge : Edge.t) :
  (RealTime.renderEdge visualNodes edge <> None
   <-> (exists s, In s visualNodes /\ VisualNode.id s = Edge.source edge)
       /\ (exists t, In t visualNodes /\ VisualNode.id t = Edge.target edge))
  /\ forall line, RealTime.renderEdge visualNodes edge = Some line ->
       exists s t,
         find_first (RealTime.has_id (Edge.source edge)) visualNodes = Some s
         /\ find_first (RealTime.has_id (Edge.target edge)) visualNodes = Some t
         /\ RealTime.x1 line = (VisualNode.x s + VisualNode.width s / 2)%Q
         /\ RealTime.y1 line = (VisualNode.y s + VisualNode.height s)%Q
         /\ RealTime.x2 line = (VisualNode.x t + VisualNode.width t / 2)%Q
         /\ RealTime.y2 line = VisualNode.y t.
Proof.
  rewrite !has_id_found. unfold RealTime.renderEdge.
  destruct (find_first (RealTime.has_id (Edge.source edge)) visualNodes) as [s|];
    destruct (find_first (RealTime.has_id (Edge.target edge)) visualNodes) as [t|];
    (split; [split|]).
  all: first
    [ intros H; split; eexists; reflexivity
    | intros H; exfalso; apply H; reflexivity
    | intros [[n Hn] [m Hm]]; first [discriminate Hn | discriminate Hm | discriminate]
    | intros line Hl; first [discriminate Hl | injection Hl as <-; exists s, t; repeat split] ].
Qed.

Lemma edge_drawn_iff_both_ends_witness :
  let visualNodes := fst (RealTime.rebuild fourNodes [] ∅) in
  let edge := Edge.mk "edge_n1_n2" "n1" "n2" Edge.normal in
  ((exists s, In s visualNodes /\ VisualNode.id s = Edge.source edge)
   /\ (exists t, In t visualNodes /\ VisualNode.id t = Edge.target edge))
  /\ RealTime.renderEdge visualNodes edge <> None.
Proof.
  cbv zeta.
  assert (H : (exists s, In s (fst (RealTime.rebuild fourNodes [] ∅))
                         /\ VisualNode.id s = "n1")
              /\ (exists t, In t (fst (RealTime.rebuild fourNodes [] ∅))
                            /\ VisualNode.id t = "n2")).
  { split; apply has_id_found; eexists; reflexivity. }
  split; [exact H|].
  exact (proj2 (proj1 (edge_drawn_iff_both_ends (fst (RealTime.rebuild fourNodes [] ∅))
                         (Edge.mk "edge_n1_n2" "n1" "n2" Edge.normal))) H).
Defined.

(** ** Node titles *)

Lemma length_append (s1 s2 : string) :
  String.length (s1 +:+ s2) = String.length s1 + String.length s2.
Proof. induction s1 as [|c s1 IH]; simpl; [reflexivity | now rewrite IH]. Qed.

Lemma length_substring_0 (n : nat) :
  forall s, String.length (String.substring 0 n s) = Nat.min n (String.length s).
Proof.
  induction n as [|n IH]; intros s; destruct s as [|c s]; simpl; try reflexivity.
  now rewrite IH.
Qed.

Lemma cut_length (keep limit : nat) (s : string) :
  limit < String.length s -> keep <= limit ->
  String.length (String.substring 0 keep s +:+ "...") = keep + 3.
Proof.
  intros Hl Hk. rewrite length_append, length_substring_0. simpl. lia.
Qed.

(** X21: the titles shown on the canvases are bounded: the grid component
    shows at most 25 code units and never more than the label has; the lane
    canvas cuts after 35 and the circle grid after 15 but then adds three
    dots, so a cut title has 38 (18) code units, more than a label of 36 or
    37 (16 or 17) had; labels within the threshold are shown unchanged. *)
Theorem title_lengths (label : string) :
  (String.length (RealTime.nodeTitle label) <= 25
   /\ String.length (RealTime.nodeTitle label) <= String.length label)
  /\ String.length (Branched.nodeTitle label) <= 38
  /\ String.length (SimpleGrid.nodeTitle label) <= 18
  /\ (35 < String.length label -> String.length (Branched.nodeTitle label) = 38)
  /\ (15 < String.length label -> String.length (SimpleGrid.nodeTitle label) = 18)
  /\ (String.length label <= 15 ->
      RealTime.nodeTitle label = label /\ Branched.nodeTitle label = label
      /\ SimpleGrid.nodeTitle label = label).
Proof.
  unfold RealTime.nodeTitle, Branched.nodeTitle, SimpleGrid.nodeTitle.
  destruct (Nat.ltb_spec 25 (String.length label)) as [H25|H25];
    destruct (Nat.ltb_spec 35 (String.length label)) as [H35|H35];
    destruct (Nat.ltb_spec 15 (String.length label)) as [H15|H15];
    try lia;
    rewrite ?(cut_length 22 25), ?(cut_length 35 35), ?(cut_length 15 15) by lia;
    repeat split; intros; try reflexivity; lia.
Qed.

Lemma title_lengths_witness :
  let label := "Comprehensive Market Sector Analysis" in
  35 < String.length label
  /\ String.length (Branched.nodeTitle label) = 38.
Proof.
  cbv zeta.
  assert (H : 35 < String.length "Comprehensive Market Sector Analysis")
    by (vm_compute; lia).
  split; [exact H|].
  exact (proj1 (proj2 (proj2 (proj2 (title_lengths "Comprehensive Market Sector Analysis")))) H).
Defined.

(** X22: the description on the lane canvas has at most 83 code units and
    the collapsed content preview of the grid component at most 100. *)
Theorem text_lengths (text : string) :
  String.length (Branched.nodeDescription text) <= 83
  /\ String.length (RealTime.contentPreview text) <= 100
  /\ String.length (RealTime.contentPreview text) <= String.length text.
Proof.
  unfold Branched.nodeDescription, RealTime.contentPreview.
  destruct (Nat.ltb_spec 80 (String.length text));
    destruct (Nat.ltb_spec 100 (String.length text));
    rewrite ?(cut_length 80 80), ?(cut_length 97 100) by lia; lia.
Qed.

(** ** The circle grid *)

Lemma grid_has_room (total : nat) :
  0 < total ->
  0 < SimpleGrid.gridCols total
  /\ total <= SimpleGrid.gridCols total * SimpleGrid.gridRows total.
Proof.
  intros Ht. unfold SimpleGrid.gridRows, SimpleGrid.gridCols.
  pose proof (Nat.sqrt_up_spec total Ht) as [_ Hs].
  assert (Hc : 0 < Nat.sqrt_up total).
  { destruct (Nat.sqrt_up total); [simpl in Hs; lia | lia]. }
  split; [exact Hc|].
  pose proof (Nat.div_mod_eq (total + Nat.sqrt_up total - 1) (Nat.sqrt_up total)).
  pose proof (Nat.mod_upper_bound (total + Nat.sqrt_up total - 1) (Nat.sqrt_up total)).
  lia.
Qed.

Lemma grid_cell (index total : nat) :
  index < total ->
  index mod SimpleGrid.gridCols total < SimpleGrid.gridCols total
  /\ index / SimpleGrid.gridCols total < SimpleGrid.gridRows total.
Proof.
  intros Hi. destruct (grid_has_room total) as [Hc Hr]; [lia|]. split.
  - apply Nat.mod_upper_bound. lia.
  - apply Nat.Div0.div_lt_upper_bound. lia.
Qed.

Lemma num_succ_le a b : a < b -> (num a + 1 <= num b)%Q.
Proof. intros H. unfold num, Qle. simpl. lia. Qed.

Lemma frac_inside (w c C : Q) :
  (0 < w)%Q -> (0 < c)%Q -> (c < C)%Q -> (0 < w / C * c /\ w / C * c < w)%Q.
Proof.
  intros Hw Hc HC. assert (H0 : (0 < C)%Q) by lra. split.
  - apply Qmult_lt_0_compat; [|exact Hc]. apply Qlt_shift_div_l; lra.
  - assert (E : (w / C * c == w * c / C)%Q) by (field; lra).
    rewrite E. apply Qlt_shift_div_r; [exact H0|].
    apply Qmult_lt_l; assumption.
Qed.

(** X23: on a canvas of positive width and height the circle grid places
    every node strictly inside the canvas: for [index < total] the centre
    has [0 < x < width] and [0 < y < height]. *)
Theorem grid_position_inside_canvas (dimensions : Branched.Dimensions) (index total : nat) :
  index < total ->
  (0 < Branched.width dimensions)%Q -> (0 < Branched.height dimensions)%Q ->
  let p := SimpleGrid.getNodePosition dimensions index total in
  (0 < Branched.px p /\ Branched.px p < Branched.width dimensions)%Q
  /\ (0 < Branched.py p /\ Branched.py p < Branched.height dimensions)%Q.
Proof.
  intros Hi Hw Hh. cbv zeta. unfold SimpleGrid.getNodePosition. cbn [Branched.px Branched.py].
  destruct (grid_cell index total Hi) as [Hc Hr].
  pose proof (num_succ_le _ _ Hc). pose proof (num_succ_le _ _ Hr).
  pose proof (num_nonneg (index mod SimpleGrid.gridCols total)).
  pose proof (num_nonneg (index / SimpleGrid.gridCols total)).
  split; apply frac_inside; auto; lra.
Qed.

Lemma grid_position_inside_canvas_witness :
  let p := SimpleGrid.getNodePosition SimpleGrid.initialDimensions 4 5 in
  4 < 5
  /\ (0 < Branched.width SimpleGrid.initialDimensions)%Q
  /\ (0 < Branched.height SimpleGrid.initialDimensions)%Q
  /\ (0 < Branched.px p /\ Branched.px p < Branched.width SimpleGrid.initialDimensions)%Q
  /\ (0 < Branched.py p /\ Branched.py p < Branched.height SimpleGrid.initialDimensions)%Q.
Proof.
  cbv zeta.
  assert (Hi : 4 < 5) by lia.
  assert (Hw : (0 < Branched.width SimpleGrid.initialDimensions)%Q) by reflexivity.
  assert (Hh : (0 < Branched.height SimpleGrid.initialDimensions)%Q) by reflexivity.
  split; [exact Hi|]. split; [exact Hw|]. split; [exact Hh|].
  exact (grid_position_inside_canvas SimpleGrid.initialDimensions 4 5 Hi Hw Hh).
Defined.

Lemma frac_inj (w c d C : Q) :
  (0 < w)%Q -> (0 < C)%Q -> (w / C * c == w / C * d)%Q -> (c == d)%Q.
Proof.
  intros Hw HC H.
  assert (Hk : (0 < w / C)%Q) by (apply Qlt_shift_div_l; lra).
  rewrite !(Qmult_comm (w / C)) in H. apply Qmult_inj_r in H; [exact H | lra].
Qed.

(** X24: on a canvas of positive width and height two different nodes of
    the circle grid never get the same centre. *)
Theorem grid_positions_distinct (dimensions : Branched.Dimensions) (i j total : nat) :
  i < total -> j < total -> i <> j ->
  (0 < Branched.width dimensions)%Q -> (0 < Branched.height dimensions)%Q ->
  let p := SimpleGrid.getNodePosition dimensions i total in
  let q := SimpleGrid.getNodePosition dimensions j total in
  ~ ((Branched.px p == Branched.px q)%Q /\ (Branched.py p == Branched.py q)%Q).
Proof.
  intros Hi Hj Hne Hw Hh. cbv zeta. unfold SimpleGrid.getNodePosition.
  cbn [Branched.px Branched.py]. intros [Hx Hy].
  destruct (grid_has_room total) as [Hc _]; [lia|].
  pose proof (num_nonneg (SimpleGrid.gridCols total)).
  pose proof (num_nonneg (SimpleGrid.gridRows total)).
  apply frac_inj in Hx; [ | exact Hw | lra ].
  apply frac_inj in Hy; [ | exact Hh | lra ].
  assert (Ex : (num (i mod SimpleGrid.gridCols total)
                == num (j mod SimpleGrid.gridCols total))%Q) by lra.
  assert (Ey : (num (i / SimpleGrid.gridCols total)
                == num (j / SimpleGrid.gridCols total))%Q) by lra.
  apply num_inj in Ex. apply num_inj in Ey.
  pose proof (Nat.div_mod_eq i (SimpleGrid.gridCols total)).
  pose proof (Nat.div_mod_eq j (SimpleGrid.gridCols total)).
  apply Hne. congruence.
Qed.

Lemma grid_positions_distinct_witness :
  let p := SimpleGrid.getNodePosition SimpleGrid.initialDimensions 1 5 in
  let q := SimpleGrid.getNodePosition SimpleGrid.initialDimensions 4 5 in
  1 < 5 /\ 4 < 5 /\ 1 <> 4
  /\ (0 < Branched.width SimpleGrid.initialDimensions)%Q
  /\ (0 < Branched.height SimpleGrid.initialDimensions)%Q
  /\ ~ ((Branched.px p == Branched.px q)%Q /\ (Branched.py p == Branched.py q)%Q).
Proof.
  cbv zeta.
  assert (Hi : 1 < 5) by lia. assert (Hj : 4 < 5) by lia. assert (Hne : 1 <> 4) by lia.
  assert (Hw : (0 < Branched.width SimpleGrid.initialDimensions)%Q) by reflexivity.
  assert (Hh : (0 < Branched.height SimpleGrid.initialDimensions)%Q) by reflexivity.
  split; [exact Hi|]. split; [exact Hj|]. split; [exact Hne|].
  split; [exact Hw|]. split; [exact Hh|].
  exact (grid_positions_distinct SimpleGrid.initialDimensions 1 4 5 Hi Hj Hne Hw Hh).
Defined.

(** ** The investigation form *)

Lemma empty_false s : Form.empty s = false -> s <> "".
Proof. unfold Form.empty. now destruct (String.eqb_spec s ""). Qed.

(** X25: the form starts an investigation only after its checks: the
    trimmed symbol is not empty and the symbol passed on is the upper-cased,
    trimmed input; in custom mode both dates are filled in and passed on as
    typed, and whenever both parse, the start lies strictly before the end
    and the end is not after the current time.  A symbol that trims to
    nothing is always rejected. *)
Theorem submission_is_checked
    (trim toUpperCase : string -> string) (parseDate : string -> option Z) (today : Z)
    (presetDates : string -> string * string)
    (st : Form.State) (symbol start_date end_date : string) :
  Form.handleSubmit trim toUpperCase parseDate today presetDates st
  = Form.Started symbol start_date end_date ->
  trim (Form.symbol st) <> ""
  /\ symbol = trim (toUpperCase (Form.symbol st))
  /\ (Form.dateMode st = Form.preset ->
      (start_date, end_date) = presetDates (Form.presetRange st))
  /\ (Form.dateMode st = Form.custom ->
      start_date = Form.customStartDate st /\ end_date = Form.customEndDate st
      /\ start_date <> "" /\ end_date <> ""
      /\ forall a b, parseDate start_date = Some a -> parseDate end_date = Some b ->
                     (a < b /\ b <= today)%Z).
Proof.
  unfold Form.handleSubmit.
  destruct (Form.empty (trim (Form.symbol st))) eqn:Es; [discriminate|].
  apply empty_false in Es.
  destruct (Form.dateMode st).
  - destruct (presetDates (Form.presetRange st)) as [s e]. intros [= <- <- <-].
    split; [exact Es|]. split; [reflexivity|]. split; [reflexivity|]. discriminate.
  - destruct (Form.empty (Form.customStartDate st)) eqn:E1; [discriminate|].
    destruct (Form.empty (Form.customEndDate st)) eqn:E2; [discriminate|].
    simpl.
    destruct (Form.date_ge _ _) eqn:Ege; [discriminate|].
    destruct (Form.date_gt _ _) eqn:Egt; [discriminate|].
    intros [= <- <- <-]. apply empty_false in E1. apply empty_false in E2.
    split; [exact Es|]. split; [reflexivity|]. split; [discriminate|].
    intros _. split; [reflexivity|]. split; [reflexivity|].
    split; [exact E1|]. split; [exact E2|].
    intros a b Ha Hb. rewrite Ha, Hb in Ege. rewrite Hb in Egt.
    simpl in Ege, Egt. lia.
Qed.

Lemma submission_is_checked_witness :
  let parseDate := fun s : string => if String.eqb s "2024-01-01" then Some 10%Z
                                     else if String.eqb s "2024-02-01" then Some 41%Z
                                     else None in
  let st := Form.mkState " aapl " Form.custom "30d" "2024-01-01" "2024-02-01" "" in
  Form.handleSubmit (fun s => s) (fun s => s) parseDate 100%Z (fun _ => ("", "")) st
  = Form.Started " aapl " "2024-01-01" "2024-02-01"
  /\ (forall a b, parseDate "2024-01-01" = Some a -> parseDate "2024-02-01" = Some b ->
                  (a < b /\ b <= 100)%Z).
Proof.
  cbv zeta.
  assert (H : Form.handleSubmit (fun s => s) (fun s => s)
                (fun s : string => if String.eqb s "2024-01-01" then Some 10%Z
                                   else if String.eqb s "2024-02-01" then Some 41%Z
                                   else None)
                100%Z (fun _ => ("", ""))
                (Form.mkState " aapl " Form.custom "30d" "2024-01-01" "2024-02-01" "")
              = Form.Started " aapl " "2024-01-01" "2024-02-01") by reflexivity.
  split; [exact H|].
  destruct (submission_is_checked _ _ _ _ _ _ _ _ _ H) as (_ & _ & _ & Hcustom).
  destruct (Hcustom eq_refl) as (_ & _ & _ & _ & Hdates). exact Hdates.
Defined.

(** Dates that do not parse pass both date checks. *)
Example unparsed_dates_pass :
  Form.handleSubmit (fun s => s) (fun s => s) (fun _ => None) 0%Z (fun _ => ("", ""))
    (Form.mkState "AAPL" Form.custom "30d" "soon" "later" "")
  = Form.Started "AAPL" "soon" "later".
Proof. reflexivity. Qed.

(** X26: a symbol that trims to nothing is rejected before anything else,
    whatever the dates, and the form then shows that message; an accepted
    submission leaves the error empty. *)
Theorem blank_symbol_rejected
    (trim toUpperCase : string -> string) (parseDate : string -> option Z) (today : Z)
    (presetDates : string -> string * string) (st : Form.State) :
  (trim (Form.symbol st) = "" ->
   Form.handleSubmit trim toUpperCase parseDate today presetDates st
   = Form.Rejected "Please enter a stock symbol"
   /\ Form.error (Form.submitted trim toUpperCase parseDate today presetDates st)
      = "Please enter a stock symbol")
  /\ (Form.error (Form.submitted trim toUpperCase parseDate today presetDates st) = "" ->
      exists symbol start_date end_date,
        Form.handleSubmit trim toUpperCase parseDate today presetDates st
        = Form.Started symbol start_date end_date).
Proof.
  split.
  - intros H. unfold Form.submitted, Form.handleSubmit, Form.empty. rewrite H. simpl.
    split; reflexivity.
  - unfold Form.submitted. cbn [Form.error].
    destruct (Form.handleSubmit trim toUpperCase parseDate today presetDates st)
      as [message | symbol s e] eqn:E; [|eauto].
    intros ->. exfalso. revert E. unfold Form.handleSubmit.
    destruct (Form.empty _); [discriminate|].
    destruct (Form.dateMode st).
    + destruct (presetDates _). discriminate.
    + destruct (_ || _); [discriminate|].
      destruct (Form.date_ge _ _); [discriminate|].
      destruct (Form.date_gt _ _); discriminate.
Qed.

Lemma blank_symbol_rejected_witness :
  (fun s : string => s) (Form.symbol Form.initial) = ""
  /\ Form.handleSubmit (fun s => s) (fun s => s) (fun _ => None) 0%Z (fun _ => ("", ""))
       Form.initial
     = Form.Rejected "Please enter a stock symbol".
Proof.
  assert (H : (fun s : string => s) (Form.symbol Form.initial) = "") by reflexivity.
  split; [exact H|].
  exact (proj1 (proj1 (blank_symbol_rejected (fun s => s) (fun s => s) (fun _ => None)
                         0%Z (fun _ => ("", "")) Form.initial) H)).
Defined.

Lemma findIndex_from_some (p : AgentNode -> bool) (l : list AgentNode) (k : nat) :
  forall i, SimpleGrid.findIndex_from p i l = Some k ->
            exists a, i <= k /\ nth_error l (k - i) = Some a /\ p a = true
                      /\ forall j b, j < k - i -> nth_error l j = Some b -> p b = false.
Proof.
  induction l as [|x l IH]; intros i; simpl; [discriminate|].
  destruct (p x) eqn:Ep.
  - intros [= <-]. exists x. rewrite Nat.sub_diag. simpl.
    repeat split; auto. intros j b Hj. lia.
  - intros H. destruct (IH _ H) as (a & Hle & Hn & Hp & Hfirst).
    exists a. split; [lia|].
    replace (k - i) with (S (k - S i)) by lia. simpl.
    split; [exact Hn|]. split; [exact Hp|].
    intros [|j] b Hj Hb; simpl in Hb.
    + now injection Hb as <-.
    + apply (Hfirst j b); [lia | exact Hb].
Qed.

Lemma findIndex_from_none (p : AgentNode -> bool) (l : list AgentNode) :
  forall i, SimpleGrid.findIndex_from p i l = None -> forall a, In a l -> p a = false.
Proof.
  induction l as [|x l IH]; intros i H a Ha; [contradiction|]. simpl in H.
  destruct (p x) eqn:Ep; [discriminate|].
  destruct Ha as [<- | Ha]; [exact Ep | eapply IH; eauto].
Qed.

(** X27: the circle grid draws the dashed line of a node exactly when the
    node has a non-empty [parent_id] that is the id of a stored node; the
    line then starts at the grid position of the first stored node with that
    id and ends at the node's own grid position. *)
Theorem circle_grid_line (dimensions : Branched.Dimensions) (nodes : list AgentNode)
    (node : AgentNode) (index : nat) :
  (forall a b,
      SimpleGrid.connectionLine dimensions nodes node index = Some (a, b) ->
      exists parentIndex parent parentId,
        parent_id node = Some parentId /\ parentId <> ""
        /\ nth_error nodes parentIndex = Some parent /\ id parent = parentId
        /\ (forall j n, j < parentIndex -> nth_error nodes j = Some n -> id n <> parentId)
        /\ a = SimpleGrid.getNodePosition dimensions parentIndex (length nodes)
        /\ b = SimpleGrid.getNodePosition dimensions index (length nodes))
  /\ (SimpleGrid.connectionLine dimensions nodes node index = None <->
      truthy_str (parent_id node) = false
      \/ forall n, In n nodes -> Some (id n) <> parent_id node).
Proof.
  unfold SimpleGrid.connectionLine, SimpleGrid.findIndex. split.
  - intros a b. destruct (truthy_str (parent_id node)) eqn:Et; simpl; [|discriminate].
    destruct (truthy_str_some _ Et) as [s Hs]. rewrite Hs in *.
    destruct (SimpleGrid.findIndex_from _ 0 nodes) as [k|] eqn:Ef; [|discriminate].
    intros [= <- <-]. apply findIndex_from_some in Ef.
    destruct Ef as (parent & _ & Hn & Hp & Hfirst). rewrite Nat.sub_0_r in *.
    exists k, parent, s. split; [reflexivity|]. split.
    { simpl in Et. now destruct (String.eqb_spec s ""). }
    split; [exact Hn|]. split; [now apply String.eqb_eq in Hp|].
    split; [|split; reflexivity].
    intros j n Hj Hjn E. specialize (Hfirst j n Hj Hjn). simpl in Hfirst.
    apply String.eqb_neq in Hfirst. contradiction.
  - destruct (truthy_str (parent_id node)) eqn:Et; simpl.
    + destruct (truthy_str_some _ Et) as [s Hs]. rewrite Hs.
      destruct (SimpleGrid.findIndex_from _ 0 nodes) as [k|] eqn:Ef.
      * split; [discriminate|]. intros [H | H]; [discriminate|]. exfalso.
        apply findIndex_from_some in Ef. destruct Ef as (parent & _ & Hn & Hp & _).
        apply nth_error_In in Hn. apply (H parent Hn). simpl in Hp.
        apply String.eqb_eq in Hp. now rewrite Hp.
      * split; [|reflexivity]. intros _. right. intros n Hn E.
        pose proof (findIndex_from_none _ _ _ Ef n Hn) as Hf. simpl in Hf.
        apply String.eqb_neq in Hf. congruence.
    + split; [intros _; now left | reflexivity].
Qed.

Lemma circle_grid_line_witness :
  let a := SimpleGrid.getNodePosition SimpleGrid.initialDimensions 0 4 in
  let b := SimpleGrid.getNodePosition SimpleGrid.initialDimensions 1 4 in
  SimpleGrid.connectionLine SimpleGrid.initialDimensions fourNodes newsSentiment 1 = Some (a, b)
  /\ exists parentIndex parent parentId,
       parent_id newsSentiment = Some parentId /\ parentId <> ""
       /\ nth_error fourNodes parentIndex = Some parent /\ id parent = parentId
       /\ (forall j n, j < parentIndex -> nth_error fourNodes j = Some n -> id n <> parentId)
       /\ a = SimpleGrid.getNodePosition SimpleGrid.initialDimensions parentIndex (length fourNodes)
       /\ b = SimpleGrid.getNodePosition SimpleGrid.initialDimensions 1 (length fourNodes).
Proof.
  cbv zeta.
  assert (H : SimpleGrid.connectionLine SimpleGrid.initialDimensions fourNodes newsSentiment 1
              = Some (SimpleGrid.getNodePosition SimpleGrid.initialDimensions 0 4,
                      SimpleGrid.getNodePosition SimpleGrid.initialDimensions 1 4))
    by reflexivity.
  split; [exact H|].
  exact (proj1 (circle_grid_line SimpleGrid.initialDimensions fourNodes newsSentiment 1) _ _ H).
Defined.
